(** * FFT window functions (AudioTools/AudioLibs/FFT/FFTWindows.h)

    A shallow embedding of the window classes of [FFTWindows.h] and the
    properties of their [begin] / [factor] contract.

    - [float] is IEEE 754 binary32, through the executable specification
      of the Standard Library ([SpecFloat], precision 24, emax 128).
    - [int] is a 32-bit two's complement integer, carried by [Z] with the
      wrap-around of every addition and subtraction written out.
    - The cosine of [<math.h>] is a parameter ([Libm]): the float overload
      [cos : float -> float] that C++ selects for a [float] argument, as it
      does for [fabs], which is exact.
    - Objects are values: a window is its fields, a [BufferedWindow] holds
      the window it points to; a method returns the object it leaves
      behind, so that what a call changes is visible in its result.
    - C strings are lists of characters; the static array of
      [BufferedWindow::name] is threaded through the calls that share
      it.
    - Where a property needs the size of a factor, floats are read as
      real numbers ([F2R]) and the cosine of the C library is compared
      with the cosine of the real numbers. *)

From Stdlib Require Import ZArith Lia Bool.
From Stdlib Require Import Reals Lra Psatz.
From Stdlib Require Import Floats.SpecFloat.
From stdpp Require Import base list.
From Stdlib Require Strings.String Strings.Ascii.
Import String.StringSyntax Ascii.AsciiSyntax.
Delimit Scope string_scope with string.

Local Open Scope Z_scope.

(** ** binary32 arithmetic *)

Definition prec : Z := 24.
Definition emax : Z := 128.

Abbreviation float := spec_float.

Definition fadd : float -> float -> float := SFadd prec emax.
Definition fsub : float -> float -> float := SFsub prec emax.
Definition fmul : float -> float -> float := SFmul prec emax.
Definition fdiv : float -> float -> float := SFdiv prec emax.
Definition fabs : float -> float := SFabs.

(** [a > b], [a <= b] and [a < b] of C++ (false as soon as one side is NaN). *)
Definition fgt (a b : float) : bool := SFltb b a.
Definition fle (a b : float) : bool := SFleb a b.

(** [static_cast<float>(z)], also the implicit conversion of an [int]
    operand: round to nearest, ties to even. *)
Definition of_int (z : Z) : float := binary_normalize prec emax z 0 false.

(** The float nearest to the decimal [m / 10^k]: what the compiler stores
    for a literal. The quotient of the two integers is rounded once. *)
Definition decimal (m : Z) (k : nat) : float :=
  SFdiv prec emax (binary_normalize 256 65536 m 0 false)
                  (binary_normalize 256 65536 (10 ^ Z.of_nat k) 0 false).

Definition zero : float := S754_zero false.                     (* 0, 0.0 *)
Definition one : float := S754_finite false 8388608 (-23).      (* 1.0f *)
Definition minus_one : float := S754_finite true 8388608 (-23). (* -1.0f *)
Definition two : float := S754_finite false 8388608 (-22).      (* 2.0f *)
Definition NaN : float := S754_nan.

(** The members [twoPi], [fourPi] and [sixPi] of [WindowFunction]. *)
Definition twoPi : float := S754_finite false 13176795 (-21).   (* 6.28318531f *)
Definition fourPi : float := S754_finite false 13176795 (-20).  (* 12.56637061f *)
Definition sixPi : float := S754_finite false 9882596 (-19).    (* 18.84955593f *)

(** The coefficients of the formulas, named by their digits. *)
Definition c0_54 : float := S754_finite false 9059697 (-24).
Definition c0_46 : float := S754_finite false 15435039 (-25).
Definition c0_355768 : float := S754_finite false 11937593 (-25).
Definition c0_487396 : float := S754_finite false 16354296 (-25).
Definition c0_144232 : float := S754_finite false 9679246 (-26).
Definition c0_012604 : float := S754_finite false 13533442 (-30).
Definition c0_42323 : float := S754_finite false 14201242 (-25).
Definition c0_49755 : float := S754_finite false 16695008 (-25).
Definition c0_07922 : float := S754_finite false 10632728 (-27).
Definition c0_3635819 : float := S754_finite false 12199784 (-25).
Definition c0_4891775 : float := S754_finite false 16414073 (-25).
Definition c0_1365995 : float := S754_finite false 9167037 (-26).
Definition c0_0106411 : float := S754_finite false 11425794 (-30).
Definition c0_35875 : float := S754_finite false 12037652 (-25).
Definition c0_48829 : float := S754_finite false 16384294 (-25).
Definition c0_14128 : float := S754_finite false 9481140 (-26).
Definition c0_01168 : float := S754_finite false 12541305 (-30).
Definition c0_2810639 : float := S754_finite false 9430940 (-25).
Definition c0_5208972 : float := S754_finite false 8739205 (-24).
Definition c0_1980399 : float := S754_finite false 13290233 (-26).

#[global] Arguments fadd : simpl never.
#[global] Arguments fsub : simpl never.
#[global] Arguments fmul : simpl never.
#[global] Arguments fdiv : simpl never.
#[global] Arguments fgt : simpl never.
#[global] Arguments of_int : simpl never.

(** ** Floats as real numbers *)







(** ** int arithmetic *)

Definition INT_MIN : Z := - 2 ^ 31.
Definition INT_MAX : Z := 2 ^ 31 - 1.
Definition int_range (z : Z) : Prop := INT_MIN <= z <= INT_MAX.

Definition wrap (z : Z) : Z := (z + 2 ^ 31) mod 2 ^ 32 - 2 ^ 31.
Definition int_add (a b : Z) : Z := wrap (a + b).
Definition int_sub (a b : Z) : Z := wrap (a - b).
(** [a / 2] truncates toward zero and cannot overflow. *)
Definition int_half (a : Z) : Z := Z.quot a 2.

#[global] Arguments wrap : simpl never.
#[global] Arguments int_half : simpl never.

(** ** Outcomes

    A call returns, or the program stops: at the [assert] of [factor], or
    at an access outside a [Vector]. *)

Inductive error := AssertionFailed | IndexOutOfRange.

Inductive result (A : Type) :=
| Ok (a : A)
| Abort (e : error).
Arguments Ok {A} a.
Arguments Abort {A} e.

Definition bind {A B : Type} (m : result A) (k : A -> result B) : result B :=
  match m with
  | Ok a => k a
  | Abort e => Abort e
  end.

Notation "'let*' x ':=' m 'in' k" := (bind m (fun x => k))
  (at level 10, x pattern, m at level 100, k at level 200).

(** ** Vector<float> *)

(** Modelled from the spec: the container [Vector<float>]
    (Collections/Vector.h is not among the sources). The spec calls the
    cache "an ordered sequence of N/2+1 floating-point values, indexed by
    position 0..half_samples" that is resized when the required size
    changes: a list, [size] its length, [resize] cutting it or padding it
    with zeros, and an access outside [0, size) stopping the program. A
    negative size is read as 0; the statements about returning calls
    below take frame lengths from 0 up, where no size is negative. *)
Abbreviation Vector := (list float).

Definition Vector_size (v : Vector) : Z := Z.of_nat (length v).

Definition Vector_resize (v : Vector) (n : Z) : Vector :=
  take (Z.to_nat n) v ++ replicate (Z.to_nat n - length v)%nat zero.

Definition Vector_get (v : Vector) (i : Z) : result float :=
  if (0 <=? i) && (i <? Vector_size v)
  then match v !! Z.to_nat i with
       | Some x => Ok x
       | None => Abort IndexOutOfRange
       end
  else Abort IndexOutOfRange.

Definition Vector_set (v : Vector) (i : Z) (x : float) : result Vector :=
  if (0 <=? i) && (i <? Vector_size v)
  then Ok (<[Z.to_nat i := x]> v)
  else Abort IndexOutOfRange.

(** ** The cosine of the C library *)

Class Libm := cos : float -> float.

(** What the theorems below use of a cosine, where they use anything:
    the two special values of C's Annex F. *)
Definition cos_of_zero `{Libm} : Prop := cos zero = one.
Definition cos_of_nan `{Libm} : Prop := cos NaN = NaN.


(** ** class WindowFunction: the fields and the non-virtual part *)

Record WindowFunction := {
  samples_minus_1 : float;
  i_samples : Z;
  i_half_samples : Z
}.

(** The member initialisers: [0.0f], [0], [0]. *)
Definition WindowFunction_new : WindowFunction :=
  {| samples_minus_1 := zero; i_samples := 0; i_half_samples := 0 |}.

(** [WindowFunction::begin]: all three fields are assigned. *)
Definition WindowFunction_begin (this : WindowFunction) (samples : Z) : WindowFunction :=
  {| samples_minus_1 := fadd minus_one (of_int samples);
     i_samples := samples;
     i_half_samples := int_half samples |}.

Definition ratio (this : WindowFunction) (idx : Z) : float :=
  fdiv (of_int idx) (samples_minus_1 this).

(** ** The ten formulas: [factor_internal] of each leaf class *)

Section Formulas.
Context `{Libm}.
Variable this : WindowFunction.

Definition Rectange_factor_internal (idx : Z) : float :=
  if (idx <? 0) || (i_samples this <=? idx) then zero else one.

Definition Hamming_factor_internal (idx : Z) : float :=
  fsub c0_54 (fmul c0_46 (cos (fmul twoPi (ratio this idx)))).

Definition Hann_factor_internal (idx : Z) : float :=
  fmul c0_54 (fsub one (cos (fmul twoPi (ratio this idx)))).

Definition Triangle_factor_internal (idx : Z) : float :=
  fsub one
    (fdiv (fmul two
             (fabs (fsub (of_int (int_sub idx 1))
                         (fdiv (of_int (int_sub (i_samples this) 1)) two))))
          (samples_minus_1 this)).

Definition Nuttall_factor_internal (idx : Z) : float :=
  let r := ratio this idx in
  fsub (fadd (fsub c0_355768 (fmul c0_487396 (cos (fmul twoPi r))))
             (fmul c0_144232 (cos (fmul fourPi r))))
       (fmul c0_012604 (cos (fmul sixPi r))).

Definition Blackman_factor_internal (idx : Z) : float :=
  let r := ratio this idx in
  fadd (fsub c0_42323 (fmul c0_49755 (cos (fmul twoPi r))))
       (fmul c0_07922 (cos (fmul fourPi r))).

Definition BlackmanNuttall_factor_internal (idx : Z) : float :=
  let r := ratio this idx in
  fsub (fadd (fsub c0_3635819 (fmul c0_4891775 (cos (fmul twoPi r))))
             (fmul c0_1365995 (cos (fmul fourPi r))))
       (fmul c0_0106411 (cos (fmul sixPi r))).

Definition BlackmanHarris_factor_internal (idx : Z) : float :=
  let r := ratio this idx in
  fsub (fadd (fsub c0_35875 (fmul c0_48829 (cos (fmul twoPi r))))
             (fmul c0_14128 (cos (fmul fourPi r))))
       (fmul c0_01168 (cos (fmul sixPi r))).

Definition FlatTop_factor_internal (idx : Z) : float :=
  let r := ratio this idx in
  fadd (fsub c0_2810639 (fmul c0_5208972 (cos (fmul twoPi r))))
       (fmul c0_1980399 (cos (fmul fourPi r))).

Definition Welch_factor_internal (idx : Z) : float :=
  let tmp := fdiv (fsub (of_int (int_sub idx 1)) (fdiv (samples_minus_1 this) two))
                  (fdiv (samples_minus_1 this) two) in
  fsub one (fmul tmp tmp).

End Formulas.

(** ** Window objects and virtual dispatch *)

(** The dynamic type of a leaf object. *)
Inductive variant :=
| Rectange | Hamming | Hann | Triangle | Nuttall | Blackman
| BlackmanNuttall | BlackmanHarris | FlatTop | Welch.

(** [factor_internal] is pure virtual and not const: an implementation
    gets the base fields and its own state [E], and returns the factor
    together with the state it leaves. *)
Class WindowImpl (E : Type) :=
  impl_factor_internal : WindowFunction -> E -> Z -> float * E.

(** The ten leaf classes add no field: their state is their type tag. *)
#[export] Instance variant_impl `{Libm} : WindowImpl variant :=
  fun this k idx =>
    (match k with
     | Rectange => Rectange_factor_internal this idx
     | Hamming => Hamming_factor_internal this idx
     | Hann => Hann_factor_internal this idx
     | Triangle => Triangle_factor_internal this idx
     | Nuttall => Nuttall_factor_internal this idx
     | Blackman => Blackman_factor_internal this idx
     | BlackmanNuttall => BlackmanNuttall_factor_internal this idx
     | BlackmanHarris => BlackmanHarris_factor_internal this idx
     | FlatTop => FlatTop_factor_internal this idx
     | Welch => Welch_factor_internal this idx
     end, k).

(** A window is a leaf or a [BufferedWindow] around another window
    ([p_wf]) with its cache ([buffer]). *)
Inductive window (E : Type) :=
| Window (base : WindowFunction) (self : E)
| BufferedWindow (base : WindowFunction) (p_wf : window E) (buffer : Vector).
Arguments Window {E} base self.
Arguments BufferedWindow {E} base p_wf buffer.

(** A leaf as constructed, and [BufferedWindow(wf)] as constructed
    ([Vector<float> buffer{0}]). *)
Definition Window_new {E : Type} (self : E) : window E :=
  Window WindowFunction_new self.
Definition BufferedWindow_new {E : Type} (wf : window E) : window E :=
  BufferedWindow WindowFunction_new wf [].

Definition fields {E : Type} (w : window E) : WindowFunction :=
  match w with
  | Window base _ => base
  | BufferedWindow base _ _ => base
  end.

(** [WindowFunction::samples] *)
Definition samples {E : Type} (w : window E) : Z := i_samples (fields w).

Section Windows.
Context {E : Type} `{WindowImpl E}.

(** [factor_internal], dispatched on the dynamic type;
    [BufferedWindow::factor_internal] reads the cache. *)
Definition factor_internal (w : window E) (idx : Z) : result (float * window E) :=
  match w with
  | Window base self =>
      let '(v, self') := impl_factor_internal base self idx in
      Ok (v, Window base self')
  | BufferedWindow base p_wf buffer =>
      if (idx <? 0) || (i_half_samples base <? idx)
      then Ok (zero, w)
      else let* v := Vector_get buffer idx in Ok (v, w)
  end.

(** [WindowFunction::factor] *)
Definition factor (w : window E) (idx : Z) : result (float * window E) :=
  let this := fields w in
  if negb (i_half_samples this =? int_half (i_samples this))
  then Abort AssertionFailed
  else
    let* (result, w') :=
      if idx <=? i_half_samples this
      then factor_internal w idx
      else factor_internal w (int_sub (int_sub (i_samples this) idx) 1) in
    Ok (if fgt result one then one else result, w').

(** The loop [for (j = 0; j <= i_half_samples; j++) buffer[j] = p_wf->factor(j)],
    over the values [js] that [j] takes: 0, 1, ..., i_half_samples, none
    when that is negative. [j] stays within half of an int, so [j++] does
    not overflow. *)
Fixpoint fill (js : list Z) (p_wf : window E) (buffer : Vector)
  : result (window E * Vector) :=
  match js with
  | [] => Ok (p_wf, buffer)
  | j :: js' =>
      let* (v, p_wf') := factor p_wf j in
      let* buffer' := Vector_set buffer j v in
      fill js' p_wf' buffer'
  end.

(** [begin], virtual: [WindowFunction::begin] for a leaf,
    [BufferedWindow::begin] for the decorator. *)
Fixpoint begin (w : window E) (n : Z) : result (window E) :=
  match w with
  | Window base self => Ok (Window (WindowFunction_begin base n) self)
  | BufferedWindow base p_wf buffer =>
      let base' := WindowFunction_begin base n in
      if negb (samples p_wf =? n)
      then
        let* p_wf' := begin p_wf n in
        let to_be_size := int_add (i_half_samples base') 1 in
        if negb (Vector_size buffer =? to_be_size)
        then
          let* (p_wf'', buffer') :=
             fill (seqZ 0 (i_half_samples base' + 1)) p_wf'
                  (Vector_resize buffer to_be_size) in
          Ok (BufferedWindow base' p_wf'' buffer')
        else Ok (BufferedWindow base' p_wf' buffer)
      else Ok (BufferedWindow base' p_wf buffer)
  end.

(** A caller's calls, and a sequence of them run on one object; the
    factors returned are collected in order. *)
Inductive call := Begin (n : Z) | Factor (idx : Z).

Fixpoint run (w : window E) (cs : list call) : result (window E * list float) :=
  match cs with
  | [] => Ok (w, [])
  | Begin n :: cs' => let* w' := begin w n in run w' cs'
  | Factor idx :: cs' =>
      let* (v, w') := factor w idx in
      let* (w'', vs) := run w' cs' in
      Ok (w'', v :: vs)
  end.

End Windows.

(** ** A spy class

    The test double of the caching property: a leaf class whose
    [factor_internal] returns [g this idx] and records each invocation,
    as the pair of the frame length it is configured for and the index. *)

Record Spy := { invocations : list (Z * Z) }.

Definition spy_impl (g : WindowFunction -> Z -> float) : WindowImpl Spy :=
  fun this s idx =>
    (g this idx, {| invocations := (i_samples this, idx) :: invocations s |}).

(** The invocations a [BufferedWindow] has caused on the spy it wraps. *)
Definition wrapped_invocations (w : window Spy) : list (Z * Z) :=
  match w with
  | BufferedWindow _ (Window _ s) _ => invocations s
  | _ => []
  end.

(** Those made while the spy was configured for frame length [n]. *)
Definition invocations_at (n : Z) (l : list (Z * Z)) : Z :=
  Z.of_nat (length (filter (fun e => fst e = n) l)).

(** How often a sequence of calls changes the frame length of the
    wrapped window to [n]: the number of its [begin(n)] calls that find
    the wrapped window at another length, [cur] being its length before
    the first call. *)
Fixpoint length_changes (n cur : Z) (cs : list call) : Z :=
  match cs with
  | [] => 0
  | Begin m :: cs' =>
      (if (m =? n) && negb (cur =? m) then 1 else 0) + length_changes n m cs'
  | Factor _ :: cs' => length_changes n cur cs'
  end.

(** The [begin] calls of a sequence all have length [n]. *)
Definition begins_at (n : Z) (cs : list call) : Prop :=
  Forall (fun c => match c with Begin m => m = n | Factor _ => True end) cs.

(** ** The asserted invariant and the reachable objects *)

Fixpoint half_samples_ok {E : Type} (w : window E) : Prop :=
  i_half_samples (fields w) = int_half (i_samples (fields w)) /\
  match w with
  | Window _ _ => True
  | BufferedWindow _ p_wf _ => half_samples_ok p_wf
  end.

(** The objects a program can hold: constructed, then changed by [begin]
    and [factor] calls, on the object itself or on the window a
    [BufferedWindow] points to. *)
Inductive reachable `{Libm} : window variant -> Prop :=
| reach_leaf (k : variant) : reachable (Window_new k)
| reach_buffered (wf : window variant) :
    reachable wf -> reachable (BufferedWindow_new wf)
| reach_begin (w w' : window variant) (n : Z) :
    reachable w -> begin w n = Ok w' -> reachable w'
| reach_factor (w w' : window variant) (idx : Z) (v : float) :
    reachable w -> factor w idx = Ok (v, w') -> reachable w'
| reach_wrapped_begin base (p_wf p_wf' : window variant) buffer (n : Z) :
    reachable (BufferedWindow base p_wf buffer) ->
    begin p_wf n = Ok p_wf' ->
    reachable (BufferedWindow base p_wf' buffer)
| reach_wrapped_factor base (p_wf p_wf' : window variant) buffer (idx : Z) (v : float) :
    reachable (BufferedWindow base p_wf buffer) ->
    factor p_wf idx = Ok (v, p_wf') ->
    reachable (BufferedWindow base p_wf' buffer).

(** ** A cosine to run the model with

    The theorems hold for every [Libm]. To evaluate the model on concrete
    inputs one is needed: the special values of Annex F and, elsewhere,
    the Taylor polynomial of degree 8 in binary32 arithmetic. *)
Definition cos_taylor : Libm :=
  fun x =>
    match x with
    | S754_nan | S754_infinity _ => NaN
    | S754_zero _ => one
    | S754_finite _ _ _ =>
        let x2 := fmul x x in
        fsub one
          (fmul (fdiv x2 (of_int 2))
             (fsub one
                (fmul (fdiv x2 (of_int 12))
                   (fsub one
                      (fmul (fdiv x2 (of_int 30))
                         (fsub one (fdiv x2 (of_int 56))))))))
    end.

(** ** Names for what the statements below talk about *)

(** The index [factor] evaluates: [idx] itself, or its mirror image. *)
Definition evaluated_index (this : WindowFunction) (idx : Z) : Z :=
  if idx <=? i_half_samples this
  then idx
  else int_sub (int_sub (i_samples this) idx) 1.

(** The clamp of [factor] applied to the formula of class [k]. *)
Definition clamped `{Libm} (k : variant) (this : WindowFunction) (j : Z) : float :=
  if fgt (fst (impl_factor_internal this k j)) one
  then one
  else fst (impl_factor_internal this k j).

(** The fields of a window after [begin(n)], and the cache a
    BufferedWindow around a window of class [k] computes for length [n]. *)
Definition configured (n : Z) : WindowFunction :=
  WindowFunction_begin WindowFunction_new n.

Definition cache `{Libm} (k : variant) (n : Z) : Vector :=
  map (clamped k (configured n)) (seqZ 0 (int_half n + 1)).

Definition buffered `{Libm} (k : variant) (n : Z) : window variant :=
  BufferedWindow (configured n) (Window (configured n) k) (cache k n).

(** A BufferedWindow around a Rectangle window after [begin(4)]. *)
Definition buffered_rectangle4 : window variant :=
  BufferedWindow (configured 4) (Window (configured 4) Rectange) [one; one; one].

(** Arithmetic over [int]: unfold the operations, turn the truncating
    division and the modulus into their equations, and leave it to [lia]. *)
Ltac int_lia :=
  unfold int_range, INT_MIN, INT_MAX, int_half, int_add, int_sub, wrap in *;
  Z.to_euclidean_division_equations; lia.

(** ** The cosines of a formula, and the classes that stay above 0 *)



(** ** Integers held by a float *)

(** The float [f] stands for the integer [z]. *)
Definition holds_integer (f : float) (z : Z) : Prop :=
  match f with
  | S754_zero _ => z = 0
  | S754_finite s m e =>
      z * 2 ^ Z.max 0 (- e) = cond_Zopp s (Zpos m) * 2 ^ Z.max 0 e
  | _ => False
  end.

(** The mantissa and the exponent of the float that holds a positive
    integer below 2^24: the integer shifted to 24 bits. *)
Definition int_mantissa (p : positive) : positive :=
  Z.to_pos (Zpos p * 2 ^ (24 - Zpos (digits2_pos p))).
Definition int_exponent (p : positive) : Z := Zpos (digits2_pos p) - 24.

(** ** The two ends of a window

    The value of each formula that depends on the index through [ratio]
    only, at ratio 0 and with cos(0) = 1: the sum of its coefficients
    with their signs, in binary32 arithmetic (0.54 - 0.46 for Hamming).
    Triangle and Welch are not of that kind. *)
Definition edge_factor (k : variant) : option float :=
  match k with
  | Rectange => Some one
  | Hamming => Some (S754_finite false 10737420 (-27))         (* 0.08 *)
  | Hann => Some zero
  | Nuttall => Some (S754_finite true 8388608 (-52))           (* -1.9e-9 *)
  | Blackman => Some (S754_finite false 10522624 (-31))        (* 0.0049 *)
  | BlackmanNuttall => Some (S754_finite false 12465600 (-35)) (* 0.00036 *)
  | BlackmanHarris => Some (S754_finite false 16484096 (-38))  (* 0.00006 *)
  | FlatTop => Some (S754_finite true 11218828 (-28))          (* -0.0418 *)
  | Triangle | Welch => None
  end.

(** The classes whose [factor_internal] looks at the range of its index:
    Rectange ([idx < 0 || idx >= i_samples]) and BufferedWindow
    ([idx < 0 || idx > i_half_samples]). *)
Definition checks_index (w : window variant) : bool :=
  match w with
  | Window _ Rectange => true
  | Window _ _ => false
  | BufferedWindow _ _ _ => true
  end.

(** ** BufferedWindows around BufferedWindows *)

(** [d] BufferedWindows, one around the other, around a window of class
    [k]: as constructed, and as [begin(n)] leaves them. *)
Fixpoint nested_new (d : nat) (k : variant) : window variant :=
  match d with
  | O => Window_new k
  | S d' => BufferedWindow_new (nested_new d' k)
  end.

Fixpoint nested `{Libm} (d : nat) (k : variant) (n : Z) : window variant :=
  match d with
  | O => Window (configured n) k
  | S d' => BufferedWindow (configured n) (nested d' k n) (cache k n)
  end.

(** ** name()

    C strings are characters in memory up to the first NUL. *)

Abbreviation char := Ascii.ascii.
Definition NUL : char := Ascii.zero.

(** The characters of a string literal. *)
Definition chars (s : String.string) : list char := String.list_ascii_of_string s.

(** The string that starts a piece of memory. *)
Fixpoint c_str (mem : list char) : list char :=
  match mem with
  | [] => []
  | c :: mem' => if Ascii.eqb c NUL then [] else c :: c_str mem'
  end.

(** [strncpy(dest, src, n)] writes [n] characters: those of the string
    [src], at most [n] of them, then NULs. It ends the copy with a NUL
    only if the string is shorter than [n]. *)
Definition strncpy_written (src : list char) (n : nat) : list char :=
  take n (c_str src) ++ replicate (n - length (c_str src))%nat NUL.

Definition write_at (mem : list char) (offset : nat) (written : list char) : list char :=
  take offset mem ++ written ++ drop (offset + length written)%nat mem.

(** [name()] of the ten leaf classes. *)
Definition variant_name (k : variant) : list char :=
  chars (match k with
         | Rectange => "Rectange"
         | Hamming => "Hamming"
         | Hann => "Hann"
         | Triangle => "Triangle"
         | Nuttall => "Nuttall"
         | Blackman => "Blackman"
         | BlackmanNuttall => "BlackmanNuttall"
         | BlackmanHarris => "BlackmanHarris"
         | FlatTop => "FlatTop"
         | Welch => "Welch"
         end)%string.

(** [static char buffer[80] = "Buffered "]: the rest is zero. The array
    is local to [BufferedWindow::name] and static: one array serves every
    BufferedWindow, and every call returns its address. *)
Definition name_buffer_new : list char := chars "Buffered "%string ++ replicate 71 NUL.

(** [BufferedWindow::name], given the array as it finds it and the memory
    the wrapped window's [name()] points to: the array as it leaves it,
    and the string at the address it returns. *)
Definition BufferedWindow_name (buffer : list char) (wrapped : list char)
  : list char * list char :=
  let buffer' := write_at buffer 9 (strncpy_written wrapped 69) in
  (buffer', c_str buffer').

(** [name()], virtual, for leaf classes named by [leaf_name]. A
    BufferedWindow around a BufferedWindow copies the array into itself,
    and [strncpy] between overlapping objects is undefined ([None]). *)
Definition name {E : Type} (leaf_name : E -> list char) (w : window E)
    (buffer : list char) : option (list char * list char) :=
  match w with
  | Window _ self => Some (buffer, c_str (leaf_name self))
  | BufferedWindow _ (Window _ self) _ => Some (BufferedWindow_name buffer (leaf_name self))
  | BufferedWindow _ (BufferedWindow _ _ _) _ => None
  end.

(** The array after [name()] calls on BufferedWindows around windows of
    the classes [ks], in that order. *)
Definition name_buffer_after (ks : list variant) : list char :=
  foldl (fun buffer k => fst (BufferedWindow_name buffer (variant_name k)))
        name_buffer_new ks.

(** What every call finds in the array and leaves in it. *)
Definition name_buffer_ok (buffer : list char) : Prop :=
  length buffer = 80%nat /\
  take 9 buffer = chars "Buffered "%string /\
  drop 78 buffer = [NUL; NUL].

(** * Properties *)

(** ** Arithmetic facts *)

Lemma wrap_id (z : Z) : int_range z -> wrap z = z.
Proof. intros Hz. int_lia. Qed.

Lemma int_half_bounds (n : Z) :
  0 <= n -> 0 <= int_half n /\ n <= 2 * int_half n + 1 /\ 2 * int_half n <= n.
Proof. intros Hn. int_lia. Qed.

Lemma int_sub_sub (n idx : Z) :
  0 <= idx < n -> n <= INT_MAX -> int_sub (int_sub n idx) 1 = n - idx - 1.
Proof.
  intros Hidx Hn. unfold int_sub.
  rewrite (wrap_id (n - idx)) by int_lia. apply wrap_id. int_lia.
Qed.

(** The literals of the source are the floats nearest to their decimals. *)
Lemma literals_nearest :
  [one; minus_one; two; twoPi; fourPi; sixPi; c0_54; c0_46;
   c0_355768; c0_487396; c0_144232; c0_012604;
   c0_42323; c0_49755; c0_07922;
   c0_3635819; c0_4891775; c0_1365995; c0_0106411;
   c0_35875; c0_48829; c0_14128; c0_01168;
   c0_2810639; c0_5208972; c0_1980399]
  = [decimal 1 0; decimal (-1) 0; decimal 2 0;
     decimal 628318531 8; decimal 1256637061 8; decimal 1884955593 8;
     decimal 54 2; decimal 46 2;
     decimal 355768 6; decimal 487396 6; decimal 144232 6; decimal 12604 6;
     decimal 42323 5; decimal 49755 5; decimal 7922 5;
     decimal 3635819 7; decimal 4891775 7; decimal 1365995 7; decimal 106411 7;
     decimal 35875 5; decimal 48829 5; decimal 14128 5; decimal 1168 5;
     decimal 2810639 7; decimal 5208972 7; decimal 1980399 7].
Proof. vm_compute. reflexivity. Qed.

(** ** The clamp of [factor] *)

Lemma SFcompare_swap (a b : float) :
  SFcompare b a = option_map CompOpp (SFcompare a b).
Proof.
  destruct a as [sa|sa| |sa ma ea], b as [sb|sb| |sb mb eb]; simpl;
    try reflexivity; try (destruct sa; reflexivity); try (destruct sb; reflexivity);
    try (destruct sa, sb; reflexivity).
  destruct sa, sb; simpl; try reflexivity.
  - rewrite (Z.compare_antisym ea eb).
    destruct (ea ?= eb); simpl; try reflexivity.
    f_equal. rewrite CompOpp_involutive.
    exact (Pos.compare_cont_antisym mb ma Eq).
  - rewrite (Z.compare_antisym ea eb).
    destruct (ea ?= eb); simpl; try reflexivity.
    f_equal. symmetry. exact (Pos.compare_cont_antisym ma mb Eq).
Qed.

(** A float that is not above [b] is at most [b], or is not a number. *)
Lemma not_fgt_fle (a b : float) :
  fgt a b = false -> b <> NaN -> a = NaN \/ fle a b = true.
Proof.
  unfold fgt, fle, SFltb, SFleb. intros Hgt Hb.
  rewrite (SFcompare_swap a b) in Hgt.
  destruct (SFcompare a b) as [[]|] eqn:Hc; simpl in Hgt; auto; try discriminate.
  left. unfold NaN in *.
  destruct a, b; simpl in Hc; try discriminate; try reflexivity; congruence.
Qed.

Lemma clamp_not_above (r : float) :
  fgt (if fgt r one then one else r) one = false.
Proof. destruct (fgt r one) eqn:Hr; [reflexivity | exact Hr]. Qed.

Lemma clamp_idempotent (r : float) :
  (if fgt (if fgt r one then one else r) one
   then one
   else if fgt r one then one else r)
  = (if fgt r one then one else r).
Proof.
  destruct (fgt r one) eqn:Hr.
  - reflexivity.
  - rewrite Hr. reflexivity.
Qed.

(** ** The container *)

Lemma Vector_size_resize (v : Vector) (n : Z) :
  0 <= n -> Vector_size (Vector_resize v n) = n.
Proof.
  intros Hn. unfold Vector_size, Vector_resize.
  rewrite length_app, length_take, length_replicate. lia.
Qed.

Lemma Vector_set_inside (pre rest : Vector) (x y : float) :
  Vector_set (pre ++ x :: rest) (Z.of_nat (length pre)) y = Ok (pre ++ y :: rest).
Proof.
  unfold Vector_set, Vector_size.
  replace ((0 <=? Z.of_nat (length pre)) &&
           (Z.of_nat (length pre) <? Z.of_nat (length (pre ++ x :: rest))))
    with true.
  - rewrite Nat2Z.id, insert_app_r_alt by lia.
    rewrite Nat.sub_diag. reflexivity.
  - symmetry. apply andb_true_iff. split; [apply Z.leb_le; lia | apply Z.ltb_lt].
    rewrite length_app. simpl. lia.
Qed.

(** ** What [factor] and [begin] do, for any leaf class *)

Lemma half_samples_ok_fields {E : Type} (w : window E) :
  half_samples_ok w -> i_half_samples (fields w) = int_half (i_samples (fields w)).
Proof. destruct w; simpl; tauto. Qed.

Lemma evaluated_index_low (b : WindowFunction) (j : Z) :
  j <= i_half_samples b -> evaluated_index b j = j.
Proof.
  intros Hj. unfold evaluated_index.
  replace (j <=? i_half_samples b) with true; [reflexivity|].
  symmetry. apply Z.leb_le. exact Hj.
Qed.

Lemma evaluated_index_range (n idx : Z) :
  1 <= n <= INT_MAX -> 0 <= idx < n ->
  0 <= evaluated_index (configured n) idx <= int_half n.
Proof.
  intros Hn Hidx. unfold evaluated_index, configured.
  cbn [i_half_samples i_samples WindowFunction_begin].
  destruct (idx <=? int_half n) eqn:Hle.
  - apply Z.leb_le in Hle. lia.
  - apply Z.leb_gt in Hle. rewrite int_sub_sub by lia. int_lia.
Qed.

Section FactorFacts.
Context {E : Type} `{WindowImpl E}.

Lemma factor_returns (w w' : window E) (idx : Z) (r : float) :
  i_half_samples (fields w) = int_half (i_samples (fields w)) ->
  factor_internal w (evaluated_index (fields w) idx) = Ok (r, w') ->
  factor w idx = Ok (if fgt r one then one else r, w').
Proof.
  unfold factor, evaluated_index. intros Ha Hr.
  rewrite Ha, Z.eqb_refl. simpl.
  rewrite <- Ha. destruct (idx <=? i_half_samples (fields w)); rewrite Hr; reflexivity.
Qed.

Lemma factor_returned (w w' : window E) (idx : Z) (v : float) :
  factor w idx = Ok (v, w') ->
  i_half_samples (fields w) = int_half (i_samples (fields w)) /\
  exists r, factor_internal w (evaluated_index (fields w) idx) = Ok (r, w') /\
            v = (if fgt r one then one else r).
Proof.
  unfold factor, evaluated_index.
  destruct (i_half_samples (fields w) =? int_half (i_samples (fields w))) eqn:Ha;
    simpl; [|discriminate].
  apply Z.eqb_eq in Ha. intros Hf. split; [exact Ha|].
  destruct (idx <=? i_half_samples (fields w));
    destruct (factor_internal w _) as [[r w1]|e]; simpl in Hf; try discriminate;
    injection Hf as <- <-; eauto.
Qed.

Lemma factor_internal_not_assertion (w : window E) (j : Z) :
  factor_internal w j <> Abort AssertionFailed.
Proof.
  destruct w as [b s|b p buf]; simpl.
  - destruct (impl_factor_internal b s j). discriminate.
  - destruct ((j <? 0) || (i_half_samples b <? j)); [discriminate|].
    unfold Vector_get.
    destruct ((0 <=? j) && (j <? Vector_size buf)); [|discriminate].
    destruct (buf !! Z.to_nat j); discriminate.
Qed.

Lemma factor_not_assertion (w : window E) (idx : Z) :
  i_half_samples (fields w) = int_half (i_samples (fields w)) ->
  factor w idx <> Abort AssertionFailed.
Proof.
  unfold factor. intros Ha. rewrite Ha, Z.eqb_refl. simpl. rewrite <- Ha.
  destruct (idx <=? i_half_samples (fields w));
    match goal with |- context [factor_internal w ?j] =>
      pose proof (factor_internal_not_assertion w j) as Hi;
      destruct (factor_internal w j) as [[r w1]|[]]
    end; simpl; congruence.
Qed.

Lemma factor_at_most_one (w w' : window E) (idx : Z) (v : float) :
  factor w idx = Ok (v, w') ->
  fgt v one = false /\ (v = NaN \/ fle v one = true).
Proof.
  intros Hf. apply factor_returned in Hf as (_ & r & _ & ->).
  pose proof (clamp_not_above r) as Hc. split; [exact Hc|].
  apply not_fgt_fle; [exact Hc | discriminate].
Qed.

Lemma begin_fields (w w' : window E) (n : Z) :
  begin w n = Ok w' -> fields w' = WindowFunction_begin (fields w) n.
Proof.
  destruct w as [b s|b p buf]; simpl.
  - intros [= <-]. reflexivity.
  - destruct (negb (samples p =? n)); [|intros [= <-]; reflexivity].
    destruct (begin p n) as [p1|e]; simpl; [|discriminate].
    destruct (negb (Vector_size buf =? _)); [|intros [= <-]; reflexivity].
    destruct (fill _ p1 _) as [[p2 buf2]|e]; simpl; [|discriminate].
    intros [= <-]. reflexivity.
Qed.

(** Past the middle, [factor] evaluates the mirrored index, which is the
    one it evaluates for the mirror image itself. *)
Lemma factor_mirror (w : window E) (idx : Z) :
  int_range (i_samples (fields w)) ->
  i_half_samples (fields w) = int_half (i_samples (fields w)) ->
  i_half_samples (fields w) < idx < i_samples (fields w) ->
  factor w idx = factor w (i_samples (fields w) - idx - 1).
Proof.
  intros Hr Ha Hi. unfold factor.
  set (n := i_samples (fields w)) in *. set (h := i_half_samples (fields w)) in *.
  assert (Hn : 0 <= n) by (subst h; int_lia).
  destruct (int_half_bounds n Hn) as (H0 & H1 & H2).
  replace (idx <=? h) with false by (symmetry; apply Z.leb_gt; lia).
  replace (n - idx - 1 <=? h) with true by (symmetry; apply Z.leb_le; lia).
  rewrite int_sub_sub by (unfold int_range in Hr; lia). reflexivity.
Qed.

(** A [factor] call on a BufferedWindow reads the cache: the object and
    the window it wraps stay as they are. *)
Lemma factor_buffered_state (base : WindowFunction) (p_wf : window E)
    (buffer : Vector) (idx : Z) (v : float) (w' : window E) :
  factor (BufferedWindow base p_wf buffer) idx = Ok (v, w') ->
  w' = BufferedWindow base p_wf buffer.
Proof.
  intros Hf. apply factor_returned in Hf as (_ & r & Hr & _).
  simpl in Hr.
  destruct ((_ <? 0) || _); [injection Hr as _ <-; reflexivity|].
  destruct (Vector_get buffer _); simpl in Hr; [|discriminate].
  injection Hr as _ <-. reflexivity.
Qed.

End FactorFacts.

(** ** The classes of the source *)

Section SourceClasses.
Context `{Libm}.

(** *** Calls that leave the object as it is *)

Lemma factor_internal_state (w w' : window variant) (idx : Z) (v : float) :
  factor_internal w idx = Ok (v, w') -> w' = w.
Proof.
  destruct w as [b k|b p buf]; simpl.
  - intros [= _ <-]. reflexivity.
  - destruct ((idx <? 0) || (i_half_samples b <? idx)); [intros [= _ <-]; reflexivity|].
    destruct (Vector_get buf idx); simpl; [|discriminate].
    intros [= _ <-]. reflexivity.
Qed.

Lemma factor_state (w w' : window variant) (idx : Z) (v : float) :
  factor w idx = Ok (v, w') -> w' = w.
Proof.
  intros Hf. apply factor_returned in Hf as (_ & r & Hr & _).
  exact (factor_internal_state _ _ _ _ Hr).
Qed.

Lemma fill_state (js : list Z) (p p' : window variant) (buf buf' : Vector) :
  fill js p buf = Ok (p', buf') -> p' = p.
Proof.
  revert p buf. induction js as [|j js IH]; intros p buf; simpl.
  - intros [= <- _]. reflexivity.
  - destruct (factor p j) as [[v p1]|e] eqn:Hf; simpl; [|discriminate].
    apply factor_state in Hf as ->.
    destruct (Vector_set buf j v) as [buf1|e]; simpl; [|discriminate].
    apply IH.
Qed.

(** *** The asserted invariant *)

Lemma fill_not_assertion (js : list Z) (p : window variant) (buf : Vector) :
  half_samples_ok p -> fill js p buf <> Abort AssertionFailed.
Proof.
  intros Hp. revert buf. induction js as [|j js IH]; intros buf; simpl; [discriminate|].
  pose proof (factor_not_assertion p j (half_samples_ok_fields p Hp)) as Hna.
  destruct (factor p j) as [[v p1]|e] eqn:Hf; simpl.
  - apply factor_state in Hf as ->.
    unfold Vector_set. destruct ((0 <=? j) && (j <? Vector_size buf)); simpl.
    + apply IH.
    + discriminate.
  - congruence.
Qed.

Lemma begin_half_samples_ok (w w' : window variant) (n : Z) :
  half_samples_ok w -> begin w n = Ok w' -> half_samples_ok w'.
Proof.
  revert w'. induction w as [b k|b p IH buf]; intros w'; simpl.
  - intros _ [= <-]. simpl. auto.
  - intros [_ Hp].
    destruct (negb (samples p =? n)); [|intros [= <-]; simpl; auto].
    destruct (begin p n) as [p1|e]; simpl; [|discriminate].
    specialize (IH p1 Hp eq_refl).
    destruct (negb (Vector_size buf =? _)); [|intros [= <-]; simpl; auto].
    destruct (fill _ p1 _) as [[p2 buf2]|e] eqn:Hfill; simpl; [|discriminate].
    apply fill_state in Hfill as ->.
    intros [= <-]. simpl. auto.
Qed.

Lemma begin_not_assertion (w : window variant) (n : Z) :
  half_samples_ok w -> begin w n <> Abort AssertionFailed.
Proof.
  induction w as [b k|b p IH buf]; simpl; [discriminate|].
  intros [_ Hp].
  destruct (negb (samples p =? n)); [|discriminate].
  specialize (IH Hp).
  destruct (begin p n) as [p1|e] eqn:Hb; simpl; [|congruence].
  pose proof (begin_half_samples_ok _ _ _ Hp Hb) as Hp1.
  destruct (negb (Vector_size buf =? _)); [|discriminate].
  match goal with |- context [fill ?js p1 ?b0] =>
    pose proof (fill_not_assertion js p1 b0 Hp1) as Hfa;
    destruct (fill js p1 b0) as [[p2 buf2]|e]
  end; simpl; congruence.
Qed.

Lemma reachable_half_samples_ok (w : window variant) :
  reachable w -> half_samples_ok w.
Proof.
  induction 1 as [k|wf _ IH|w w' n _ IH Hb|w w' idx v _ IH Hf
                 |b p p' buf n _ IH Hb|b p p' buf idx v _ IH Hf].
  - simpl. auto.
  - simpl. auto.
  - exact (begin_half_samples_ok _ _ _ IH Hb).
  - apply factor_state in Hf as ->. exact IH.
  - destruct IH as [Ha Hp]. split; [exact Ha|].
    exact (begin_half_samples_ok _ _ _ Hp Hb).
  - apply factor_state in Hf as ->. exact IH.
Qed.

(** *** The cache of a BufferedWindow *)

Lemma factor_leaf (k : variant) (this : WindowFunction) (idx : Z) :
  i_half_samples this = int_half (i_samples this) ->
  factor (Window this k) idx
  = Ok (clamped k this (evaluated_index this idx), Window this k).
Proof. intros Hh. apply factor_returns; [exact Hh | reflexivity]. Qed.

(** The loop, started at [j = length pre] with [len] positions to go,
    overwrites exactly those positions with the clamped factors. *)
Lemma fill_leaf (k : variant) (this : WindowFunction) (len : nat) :
  i_half_samples this = int_half (i_samples this) ->
  forall pre rest : Vector,
    length rest = len ->
    Z.of_nat (length pre + len) <= i_half_samples this + 1 ->
    fill (seqZ (Z.of_nat (length pre)) (Z.of_nat len)) (Window this k) (pre ++ rest)
    = Ok (Window this k,
          pre ++ map (clamped k this) (seqZ (Z.of_nat (length pre)) (Z.of_nat len))).
Proof.
  intros Hh. induction len as [|len IH]; intros pre rest Hrest Hlen.
  - destruct rest; [|discriminate]. reflexivity.
  - destruct rest as [|x rest]; [discriminate|]. injection Hrest as Hrest.
    rewrite seqZ_cons by lia.
    replace (Z.pred (Z.of_nat (S len))) with (Z.of_nat len) by lia.
    replace (Z.succ (Z.of_nat (length pre)))
      with (Z.of_nat (length (pre ++ [clamped k this (Z.of_nat (length pre))])))
      by (rewrite length_app; simpl; lia).
    cbn [fill map].
    rewrite factor_leaf by exact Hh. cbn [bind].
    rewrite evaluated_index_low by lia.
    rewrite Vector_set_inside. cbn [bind].
    rewrite (cons_middle _ pre rest), app_assoc.
    rewrite IH; [|exact Hrest|rewrite length_app; simpl; lia].
    rewrite <- app_assoc. reflexivity.
Qed.

Lemma fill_all (k : variant) (n : Z) (buf : Vector) :
  0 <= int_half n ->
  Vector_size buf = int_half n + 1 ->
  fill (seqZ 0 (int_half n + 1)) (Window (configured n) k) buf
  = Ok (Window (configured n) k, cache k n).
Proof.
  intros Hh Hsize.
  pose proof (fill_leaf k (configured n) (Z.to_nat (int_half n + 1)) eq_refl [] buf)
    as Hfill.
  cbn [length Nat.add app] in Hfill. rewrite Z2Nat.id in Hfill by lia.
  change (Z.of_nat 0) with 0 in Hfill.
  apply Hfill.
  - unfold Vector_size in Hsize. lia.
  - simpl. lia.
Qed.

Lemma Vector_size_cache (k : variant) (n : Z) :
  0 <= int_half n -> Vector_size (cache k n) = int_half n + 1.
Proof.
  intros Hh. unfold Vector_size, cache. rewrite length_map, length_seqZ. lia.
Qed.

(** [begin(n)] on a new BufferedWindow around a new window of class [k]. *)
Lemma begin_buffered_new (k : variant) (n : Z) :
  1 <= n <= INT_MAX ->
  begin (BufferedWindow_new (Window_new k)) n = Ok (buffered k n).
Proof.
  intros Hn. unfold BufferedWindow_new, Window_new, buffered. cbn [begin].
  unfold samples. cbn [fields i_samples WindowFunction_new].
  replace (0 =? n) with false by (symmetry; apply Z.eqb_neq; lia).
  cbn [negb bind i_half_samples WindowFunction_begin].
  assert (Hh : 0 <= int_half n) by int_lia.
  assert (Hsize : int_add (int_half n) 1 = int_half n + 1)
    by (unfold int_add; apply wrap_id; int_lia).
  rewrite Hsize.
  replace (Vector_size [] =? int_half n + 1) with false
    by (symmetry; apply Z.eqb_neq; unfold Vector_size; simpl; lia).
  cbn [negb].
  change (WindowFunction_begin WindowFunction_new n) with (configured n).
  rewrite fill_all; [reflexivity | exact Hh | apply Vector_size_resize; lia].
Qed.

(** A second [begin] on it, with another frame length: the cache is
    computed again when the half length changes, and only then. *)
Lemma begin_buffered_again (k : variant) (n1 n2 : Z) :
  1 <= n1 <= INT_MAX -> 1 <= n2 <= INT_MAX -> n1 <> n2 ->
  begin (buffered k n1) n2
  = Ok (BufferedWindow (configured n2) (Window (configured n2) k)
          (if int_half n1 =? int_half n2 then cache k n1 else cache k n2)).
Proof.
  intros Hn1 Hn2 Hne. unfold buffered. cbn [begin].
  unfold samples. change (i_samples (fields (Window (configured n1) k))) with n1.
  replace (n1 =? n2) with false by (symmetry; apply Z.eqb_neq; lia).
  cbn [negb bind].
  change (WindowFunction_begin (configured n1) n2) with (configured n2).
  change (i_half_samples (configured n2)) with (int_half n2).
  assert (Hh1 : 0 <= int_half n1) by int_lia.
  assert (Hh2 : 0 <= int_half n2) by int_lia.
  assert (Hsize : int_add (int_half n2) 1 = int_half n2 + 1)
    by (unfold int_add; apply wrap_id; int_lia).
  rewrite Hsize.
  rewrite Vector_size_cache by exact Hh1.
  destruct (int_half n1 =? int_half n2) eqn:Heq.
  - apply Z.eqb_eq in Heq.
    replace (int_half n1 + 1 =? int_half n2 + 1) with true
      by (symmetry; apply Z.eqb_eq; lia).
    reflexivity.
  - apply Z.eqb_neq in Heq.
    replace (int_half n1 + 1 =? int_half n2 + 1) with false
      by (symmetry; apply Z.eqb_neq; lia).
    cbn [negb].
    rewrite fill_all; [reflexivity | exact Hh2 | apply Vector_size_resize; lia].
Qed.

(** On it, [factor] returns what the plain window returns. *)
Lemma factor_buffered (k : variant) (n idx : Z) :
  1 <= n <= INT_MAX -> 0 <= idx < n ->
  factor (buffered k n) idx
  = Ok (clamped k (configured n) (evaluated_index (configured n) idx), buffered k n).
Proof.
  intros Hn Hidx.
  pose proof (evaluated_index_range n idx Hn Hidx) as Hj.
  set (j := evaluated_index (configured n) idx) in *.
  assert (Hfi : factor_internal (buffered k n) j
                = Ok (clamped k (configured n) j, buffered k n)).
  { unfold buffered at 1. cbn [factor_internal].
    cbn [i_half_samples configured WindowFunction_begin].
    replace ((j <? 0) || (int_half n <? j)) with false
      by (symmetry; apply orb_false_iff; split; apply Z.ltb_ge; lia).
    unfold Vector_get. rewrite Vector_size_cache by lia.
    replace ((0 <=? j) && (j <? int_half n + 1)) with true
      by (symmetry; apply andb_true_iff; split;
          [apply Z.leb_le | apply Z.ltb_lt]; lia).
    unfold cache.
    change (map (clamped k (configured n)))
      with (fmap (M:=list) (clamped k (configured n))).
    rewrite list_lookup_fmap, lookup_seqZ_lt by lia.
    cbn [fmap option_fmap option_map bind].
    rewrite Z2Nat.id by lia. reflexivity. }
  rewrite (factor_returns (buffered k n) (buffered k n) idx _ eq_refl Hfi).
  unfold clamped. rewrite clamp_idempotent. reflexivity.
Qed.

End SourceClasses.

(** ** A BufferedWindow around a spy *)

Section SpiedWindow.
Variable g : WindowFunction -> Z -> float.
#[local] Instance spied_impl : WindowImpl Spy := spy_impl g.

(** The loop of [begin] on a spy: one invocation for each value of [j],
    the latest first. *)
Lemma fill_spy (js : list Z) (b : WindowFunction) (s : Spy) (buf : Vector)
    (w' : window Spy) (buf' : Vector) :
  fill js (Window b s) buf = Ok (w', buf') ->
  exists s' : Spy,
    w' = Window b s' /\
    invocations s'
    = rev (map (fun j => (i_samples b, evaluated_index b j)) js) ++ invocations s.
Proof.
  revert s buf. induction js as [|j js IH]; intros s buf; simpl.
  - intros [= <- _]. exists s. split; reflexivity.
  - destruct (factor (Window b s) j) as [[v p1]|e] eqn:Hf; simpl; [|discriminate].
    apply factor_returned in Hf as (_ & r & Hr & _).
    simpl in Hr. injection Hr as _ <-.
    destruct (Vector_set buf j v) as [buf1|e]; simpl; [|discriminate].
    intros Hfill. apply IH in Hfill as (s' & -> & Hs').
    exists s'. split; [reflexivity|].
    rewrite Hs'. simpl. rewrite <- app_assoc. reflexivity.
Qed.

Lemma map_evaluated_index_seqZ (b : WindowFunction) (n len : Z) :
  i_samples b = n -> len <= i_half_samples b + 1 ->
  map (fun j => (i_samples b, evaluated_index b j)) (seqZ 0 len)
  = map (fun j => (n, j)) (seqZ 0 len).
Proof.
  intros Hn Hlen. apply map_ext_in. intros j Hj.
  apply list_elem_of_In, elem_of_seqZ in Hj.
  rewrite Hn, evaluated_index_low by lia. reflexivity.
Qed.

(** With an int for frame length, [begin] on a BufferedWindow around a
    spy returns: the loop writes inside the resized cache. *)
Lemma fill_spy_returns (js : list Z) (b : WindowFunction) (s : Spy) (buf : Vector) :
  i_half_samples b = int_half (i_samples b) ->
  Forall (fun j => 0 <= j < Vector_size buf) js ->
  exists (w' : window Spy) (buf' : Vector), fill js (Window b s) buf = Ok (w', buf').
Proof.
  intros Hb Hjs. revert s buf Hjs. induction js as [|j js IH]; intros s buf Hjs; simpl.
  - eauto.
  - apply Forall_cons in Hjs as [Hj Hjs].
    rewrite (factor_returns (Window b s)
               (Window b {| invocations :=
                              (i_samples b, evaluated_index b j) :: invocations s |})
               j (g b (evaluated_index b j)) Hb)
      by reflexivity.
    simpl. unfold Vector_set.
    replace ((0 <=? j) && (j <? Vector_size buf)) with true
      by (symmetry; apply andb_true_iff; split; [apply Z.leb_le | apply Z.ltb_lt]; lia).
    simpl. apply IH.
    eapply Forall_impl; [exact Hjs|]. intros i Hi'. simpl in Hi'.
    unfold Vector_size in *. rewrite length_insert. exact Hi'.
Qed.

Lemma begin_spy_returns (base b : WindowFunction) (s : Spy) (buffer : Vector) (n : Z) :
  int_range n ->
  exists w' : window Spy, begin (BufferedWindow base (Window b s) buffer) n = Ok w'.
Proof.
  intros Hn. simpl. unfold samples. simpl.
  destruct (negb (i_samples b =? n)); [|eauto].
  simpl. destruct (negb (Vector_size buffer =? _)); [|eauto].
  assert (Hsize : int_add (int_half n) 1 = int_half n + 1).
  { unfold int_add. apply wrap_id. int_lia. }
  rewrite Hsize.
  destruct (fill_spy_returns (seqZ 0 (int_half n + 1)) (WindowFunction_begin b n) s
              (Vector_resize buffer (int_half n + 1)) eq_refl) as (w1 & buf1 & Hfill).
  - apply Forall_forall. intros j Hj. apply elem_of_seqZ in Hj.
    rewrite Vector_size_resize by lia. lia.
  - rewrite Hfill. simpl. eauto.
Qed.

Lemma length_changes_nonneg (n : Z) (cs : list call) :
  forall cur : Z, 0 <= length_changes n cur cs.
Proof.
  induction cs as [|[m|idx] cs IH]; intros cur; cbn [length_changes].
  - lia.
  - specialize (IH m). destruct ((m =? n) && negb (cur =? m)); lia.
  - apply IH.
Qed.

Lemma invocations_at_app (n : Z) (l1 l2 : list (Z * Z)) :
  invocations_at n (l1 ++ l2) = invocations_at n l1 + invocations_at n l2.
Proof. unfold invocations_at. rewrite filter_app, length_app. lia. Qed.

Lemma invocations_at_length (n : Z) (l : list (Z * Z)) :
  0 <= invocations_at n l <= Z.of_nat (length l).
Proof.
  unfold invocations_at. pose proof (length_filter (fun e : Z * Z => fst e = n) l). lia.
Qed.

Lemma invocations_at_none (n : Z) (l : list (Z * Z)) :
  Forall (fun e => fst e <> n) l -> invocations_at n l = 0.
Proof.
  induction 1 as [|e l He _ IH]; [reflexivity|].
  unfold invocations_at in *. rewrite filter_cons.
  destruct (decide (fst e = n)); [contradiction|]. exact IH.
Qed.

Lemma invocations_at_other (n m : Z) (js : list Z) :
  m <> n -> invocations_at n (rev (map (fun j => (m, j)) js)) = 0.
Proof.
  intros Hne. apply invocations_at_none, Forall_rev.
  induction js as [|j js IH]; constructor; [exact Hne | exact IH].
Qed.

(** One [begin(n)] on a BufferedWindow around a spy: the spy ends at
    length [n]; it is invoked only if it was at another length, and then
    once for each index 0 .. n/2. *)
Lemma begin_spy_guarded (base b : WindowFunction) (s : Spy) (buffer : Vector)
    (n : Z) (w' : window Spy) :
  begin (BufferedWindow base (Window b s) buffer) n = Ok w' ->
  exists (b' : WindowFunction) (s' : Spy) (buffer' : Vector) (new : list (Z * Z)),
    w' = BufferedWindow (WindowFunction_begin base n) (Window b' s') buffer' /\
    i_samples b' = n /\
    invocations s' = new ++ invocations s /\
    (new = [] \/
     (i_samples b <> n /\ new = rev (map (fun j => (n, j)) (seqZ 0 (int_half n + 1))))).
Proof.
  simpl. unfold samples. simpl.
  destruct (i_samples b =? n) eqn:Hs; cbn [negb].
  - apply Z.eqb_eq in Hs. intros [= <-]. exists b, s, buffer, [].
    repeat split; [exact Hs|]. left. reflexivity.
  - apply Z.eqb_neq in Hs. simpl. destruct (negb (Vector_size buffer =? _)).
    + destruct (fill _ _ _) as [[p2 buf2]|e] eqn:Hfill; simpl; [|discriminate].
      intros [= <-]. apply fill_spy in Hfill as (s' & -> & Hs').
      exists (WindowFunction_begin b n), s', buf2. eexists.
      split; [reflexivity|]. split; [reflexivity|]. split; [exact Hs'|]. right.
      split; [exact Hs|].
      rewrite (map_evaluated_index_seqZ _ n); [reflexivity|reflexivity|simpl; lia].
    + intros [= <-]. exists (WindowFunction_begin b n), s, buffer, [].
      repeat split. left. reflexivity.
Qed.

Lemma run_spy_changes (n : Z) (cs : list call) :
  forall (base b : WindowFunction) (s : Spy) (buffer : Vector)
         (w' : window Spy) (vs : list float),
    run (BufferedWindow base (Window b s) buffer) cs = Ok (w', vs) ->
    invocations_at n (wrapped_invocations w')
    <= invocations_at n (invocations s)
       + Z.max 0 (int_half n + 1) * length_changes n (i_samples b) cs.
Proof.
  induction cs as [|[m|idx] cs IH]; intros base b s buffer w' vs; cbn [run].
  - intros [= <- _]. simpl. lia.
  - destruct (begin _ m) as [w1|e] eqn:Hb; cbn [bind]; [|discriminate].
    destruct (begin_spy_guarded _ _ _ _ _ _ Hb)
      as (b' & s' & buffer' & new & -> & Hb' & Hs' & Hnew).
    intros Hrun. apply IH in Hrun. rewrite Hs', invocations_at_app, Hb' in Hrun.
    cbn [length_changes].
    assert (Hn : invocations_at n new
                 <= Z.max 0 (int_half n + 1)
                    * (if (m =? n) && negb (i_samples b =? m) then 1 else 0)).
    { destruct Hnew as [-> | [Hne ->]].
      - change (invocations_at n []) with 0.
        destruct ((m =? n) && negb (i_samples b =? m)); lia.
      - destruct (Z.eq_dec m n) as [-> | Hmn].
        + rewrite Z.eqb_refl.
          replace (i_samples b =? n) with false by (symmetry; apply Z.eqb_neq; exact Hne).
          cbn [andb negb].
          pose proof (invocations_at_length n
                        (rev (map (fun j => (n, j)) (seqZ 0 (int_half n + 1))))) as Hl.
          rewrite length_rev, length_map, length_seqZ in Hl. lia.
        + rewrite invocations_at_other by exact Hmn.
          destruct ((m =? n) && negb (i_samples b =? m)); lia. }
    lia.
  - destruct (factor _ idx) as [[v w1]|e] eqn:Hf; cbn [bind]; [|discriminate].
    apply factor_buffered_state in Hf as ->.
    destruct (run _ cs) as [[w2 vs2]|e] eqn:Hrun; cbn [bind]; [|discriminate].
    intros [= <- _]. apply IH in Hrun. exact Hrun.
Qed.

Lemma run_spy_one_length (n : Z) (cs : list call) :
  begins_at n cs ->
  forall (base b : WindowFunction) (s : Spy) (buffer : Vector)
         (w' : window Spy) (vs : list float),
    run (BufferedWindow base (Window b s) buffer) cs = Ok (w', vs) ->
    Z.of_nat (length (wrapped_invocations w'))
    <= Z.of_nat (length (invocations s))
       + (if i_samples b =? n then 0 else Z.max 0 (int_half n + 1)).
Proof.
  induction 1 as [|[m|idx] cs Hc _ IH]; intros base b s buffer w' vs; cbn [run].
  - intros [= <- _]. simpl. destruct (i_samples b =? n); lia.
  - subst m. destruct (begin _ n) as [w1|e] eqn:Hb; cbn [bind]; [|discriminate].
    destruct (begin_spy_guarded _ _ _ _ _ _ Hb)
      as (b' & s' & buffer' & new & -> & Hb' & Hs' & Hnew).
    intros Hrun. apply IH in Hrun. rewrite Hs', length_app, Hb', Z.eqb_refl in Hrun.
    destruct Hnew as [-> | [Hne ->]].
    + simpl in Hrun. destruct (i_samples b =? n); lia.
    + replace (i_samples b =? n) with false by (symmetry; apply Z.eqb_neq; exact Hne).
      rewrite length_rev, length_map, length_seqZ in Hrun. lia.
  - destruct (factor _ idx) as [[v w1]|e] eqn:Hf; cbn [bind]; [|discriminate].
    apply factor_buffered_state in Hf as ->.
    destruct (run _ cs) as [[w2 vs2]|e] eqn:Hrun; cbn [bind]; [|discriminate].
    intros [= <- _]. apply IH in Hrun. exact Hrun.
Qed.

End SpiedWindow.

(** ** Integers below 2^24 are floats

    [SpecFloat] rounds through [binary_round]: a number that a mantissa
    of 24 bits holds passes through it unchanged. *)

Lemma digits2_pos_iter_xO (p k : positive) :
  digits2_pos (Pos.iter xO p k) = (digits2_pos p + k)%positive.
Proof.
  induction k as [|k IH] using Pos.peano_ind.
  - simpl. lia.
  - rewrite Pos.iter_succ. simpl. rewrite IH. lia.
Qed.

(** A mantissa of 24 bits with an exponent in range is a float as it stands. *)
Lemma binary_round_aux_exact (s : bool) (m : positive) (e : Z) :
  Zpos (digits2_pos m) = 24 -> -149 <= e <= 104 ->
  binary_round_aux prec emax s (Zpos m) e loc_Exact = S754_finite s m e.
Proof.
  intros Hd He. unfold binary_round_aux, shr_fexp. cbn [shr_record_of_loc Zdigits2].
  rewrite Hd.
  assert (Hf : fexp prec emax (24 + e) - e = 0).
  { unfold fexp, emin, prec, emax. lia. }
  rewrite Hf. cbn [shr shr_m loc_of_shr_record round_nearest_even Zdigits2].
  rewrite Hd, Hf. cbn [shr shr_m].
  replace (e <=? emax - prec) with true; [reflexivity|].
  symmetry. apply Z.leb_le. unfold emax, prec. lia.
Qed.

Lemma digits2_pos_log2 (p : positive) :
  Zpos (digits2_pos p) = Z.log2 (Zpos p) + 1.
Proof.
  induction p as [p IH|p IH|]; simpl; try reflexivity.
  - rewrite Pos2Z.inj_succ, IH.
    destruct p; simpl in *; lia.
  - rewrite Pos2Z.inj_succ, IH.
    destruct p; simpl in *; lia.
Qed.

Lemma iter_xO_value (p k : positive) :
  Zpos (Pos.iter xO p k) = Zpos p * 2 ^ Zpos k.
Proof.
  induction k as [|k IH] using Pos.peano_ind.
  - simpl. lia.
  - rewrite Pos.iter_succ, Pos2Z.inj_xO, IH, Pos2Z.inj_succ, Z.pow_succ_r by lia. lia.
Qed.

Lemma iter_shr_1_exact (k : positive) :
  forall a : positive,
    SpecFloat.iter_pos shr_1 k {| shr_m := Zpos (Pos.iter xO a k); shr_r := false; shr_s := false |}
    = {| shr_m := Zpos a; shr_r := false; shr_s := false |}.
Proof.
  induction k as [k IH|k IH|]; intros a; simpl.
  - rewrite IH, IH. reflexivity.
  - rewrite IH, IH. reflexivity.
  - reflexivity.
Qed.

Lemma shl_align_value (mx : positive) (ex ex' : Z) :
  ex' <= ex ->
  shl_align mx ex ex' = (Z.to_pos (Zpos mx * 2 ^ (ex - ex')), ex').
Proof.
  intros Hle. unfold shl_align.
  destruct (ex' - ex) as [|d|d] eqn:Hd; try lia.
  - replace (ex - ex') with 0 by lia. replace ex' with ex by lia.
    rewrite Z.mul_1_r. reflexivity.
  - replace (ex - ex') with (Zpos d) by lia.
    rewrite <- iter_xO_value. reflexivity.
Qed.

Lemma shl_align_keep (mx : positive) (ex ex' : Z) :
  ex <= ex' -> shl_align mx ex ex' = (mx, ex).
Proof.
  intros Hle. unfold shl_align.
  destruct (ex' - ex) as [|d|d] eqn:Hd; try lia; reflexivity.
Qed.

(** Rounding a number that a 24-bit mantissa holds changes nothing. *)
Lemma binary_round_canonical (q m : positive) (e e' : Z) :
  Zpos (digits2_pos m) = 24 -> -149 <= e' <= 104 ->
  Zpos q * 2 ^ (e - Z.min e e') = Zpos m * 2 ^ (e' - Z.min e e') ->
  binary_round prec emax false q e = S754_finite false m e'.
Proof.
  intros Hd He' Hv. unfold binary_round.
  assert (Hdq : Zpos (digits2_pos q) + e = 24 + e').
  { rewrite digits2_pos_log2 in *.
    assert (Hl : Z.log2 (Zpos q * 2 ^ (e - Z.min e e'))
                 = Z.log2 (Zpos m * 2 ^ (e' - Z.min e e'))) by (rewrite Hv; reflexivity).
    rewrite !Z.log2_mul_pow2 in Hl by lia. lia. }
  rewrite Hdq.
  assert (Hf : fexp prec emax (24 + e') = e') by (unfold fexp, emin, prec, emax; lia).
  rewrite Hf.
  destruct (Z_le_gt_dec e' e) as [Hle|Hgt].
  - rewrite shl_align_value by exact Hle.
    rewrite Z.min_r in Hv by lia. rewrite Z.sub_diag, Z.mul_1_r in Hv.
    rewrite Hv. cbn [Z.to_pos]. apply binary_round_aux_exact; assumption.
  - rewrite shl_align_keep by lia.
    rewrite Z.min_l in Hv by lia. rewrite Z.sub_diag, Z.mul_1_r in Hv.
    destruct (e' - e) as [|k|k] eqn:Hk; try lia.
    rewrite <- iter_xO_value in Hv. injection Hv as ->.
    unfold binary_round_aux, shr_fexp. cbn [shr_record_of_loc Zdigits2].
    rewrite Hdq, Hf.
    replace (e' - e) with (Zpos k) by lia. cbn [shr].
    rewrite iter_shr_1_exact.
    cbn [shr_m loc_of_shr_record round_nearest_even Zdigits2].
    rewrite Hd. replace (e + Zpos k) with e' by lia.
    rewrite Hf, Z.sub_diag. cbn [shr shr_m].
    replace (e' <=? emax - prec) with true; [reflexivity|].
    symmetry. apply Z.leb_le. unfold emax, prec. lia.
Qed.

Lemma digits2_pos_bound (p : positive) :
  Zpos p < 2 ^ 24 -> 1 <= Zpos (digits2_pos p) <= 24.
Proof.
  intros Hp. rewrite digits2_pos_log2.
  pose proof (Z.log2_nonneg (Zpos p)).
  assert (Z.log2 (Zpos p) < 24) by (apply Z.log2_lt_pow2; lia). lia.
Qed.

Lemma int_mantissa_value (p : positive) :
  Zpos p < 2 ^ 24 ->
  Zpos (int_mantissa p) = Zpos p * 2 ^ (24 - Zpos (digits2_pos p)).
Proof.
  intros Hp. pose proof (digits2_pos_bound p Hp) as Hd. unfold int_mantissa.
  apply Z2Pos.id. apply Z.mul_pos_pos; [lia|]. apply Z.pow_pos_nonneg; lia.
Qed.

Lemma int_mantissa_digits (p : positive) :
  Zpos p < 2 ^ 24 -> Zpos (digits2_pos (int_mantissa p)) = 24.
Proof.
  intros Hp. pose proof (digits2_pos_bound p Hp) as Hd.
  rewrite digits2_pos_log2, int_mantissa_value by exact Hp.
  rewrite Z.log2_mul_pow2 by lia. rewrite digits2_pos_log2 in *. lia.
Qed.

Lemma binary_round_int (q p : positive) (e : Z) :
  Zpos p < 2 ^ 24 -> -23 <= e <= 0 ->
  Zpos q * 2 ^ (e + 23) = Zpos p * 2 ^ 23 ->
  binary_round prec emax false q e = S754_finite false (int_mantissa p) (int_exponent p).
Proof.
  intros Hp He Hv. pose proof (digits2_pos_bound p Hp) as Hd.
  apply binary_round_canonical.
  - apply int_mantissa_digits, Hp.
  - unfold int_exponent. lia.
  - rewrite int_mantissa_value by exact Hp. unfold int_exponent.
    set (d := Zpos (digits2_pos p)) in *.
    destruct (Z_le_gt_dec e (d - 24)) as [Hle|Hgt].
    + rewrite Z.min_l by lia. rewrite Z.sub_diag, Z.mul_1_r.
      rewrite <- Z.mul_assoc, <- Z.pow_add_r by lia.
      apply (Z.mul_cancel_r _ _ (2 ^ (e + 23))); [apply Z.pow_nonzero; lia|].
      rewrite Hv. rewrite <- Z.mul_assoc, <- Z.pow_add_r by lia.
      f_equal. f_equal. lia.
    + rewrite Z.min_r by lia. rewrite Z.sub_diag, Z.mul_1_r.
      apply (Z.mul_cancel_r _ _ (2 ^ (d - 24 + 23))); [apply Z.pow_nonzero; lia|].
      rewrite <- !Z.mul_assoc, <- !Z.pow_add_r by lia.
      replace (e - (d - 24) + (d - 24 + 23)) with (e + 23) by lia.
      rewrite Hv. f_equal. f_equal. lia.
Qed.

Lemma of_int_exact (p : positive) :
  Zpos p < 2 ^ 24 ->
  of_int (Zpos p) = S754_finite false (int_mantissa p) (int_exponent p).
Proof.
  intros Hp. unfold of_int. cbn [binary_normalize].
  apply binary_round_int; [exact Hp | lia | reflexivity].
Qed.

Lemma samples_minus_1_exact (n : Z) :
  2 <= n < 2 ^ 24 -> fadd minus_one (of_int n) = of_int (n - 1).
Proof.
  intros Hn.
  destruct n as [|p|p]; try lia.
  destruct (Zpos p - 1) as [|p'|p'] eqn:Hp'; try lia.
  rewrite (of_int_exact p), (of_int_exact p') by lia.
  pose proof (digits2_pos_bound p ltac:(lia)) as Hd.
  assert (Hd2 : 2 <= Zpos (digits2_pos p)).
  { rewrite digits2_pos_log2. assert (1 <= Z.log2 (Zpos p)) by (apply Z.log2_le_pow2; lia). lia. }
  unfold fadd, minus_one. cbn [SFadd].
  rewrite Z.min_l by (unfold int_exponent; lia).
  rewrite (shl_align_value (int_mantissa p) (int_exponent p) (-23))
    by (unfold int_exponent; lia).
  rewrite shl_align_keep by lia. cbn [fst cond_Zopp].
  rewrite Z2Pos.id.
  2:{ apply Z.mul_pos_pos; [lia|]. apply Z.pow_pos_nonneg; unfold int_exponent; lia. }
  rewrite int_mantissa_value by lia.
  assert (Hsum : Z.opp 8388608 + Zpos p * 2 ^ (24 - Zpos (digits2_pos p)) * 2 ^ (int_exponent p - -23)
                 = Zpos p' * 2 ^ 23).
  { unfold int_exponent. rewrite <- Z.mul_assoc, <- Z.pow_add_r by lia.
    replace (24 - Zpos (digits2_pos p) + (Zpos (digits2_pos p) - 24 - -23)) with 23 by lia.
    change (2 ^ 23) with 8388608. lia. }
  rewrite Hsum.
  destruct (Zpos p' * 2 ^ 23) as [|q|q] eqn:Hq; try lia.
  cbn [binary_normalize].
  apply binary_round_int; [lia | lia | ].
  rewrite Hq. change (-23 + 23) with 0. lia.
Qed.

Lemma of_int_holds (z : Z) : 0 <= z < 2 ^ 24 -> holds_integer (of_int z) z.
Proof.
  intros Hz. destruct z as [|p|p]; try lia.
  - reflexivity.
  - rewrite of_int_exact by lia. pose proof (digits2_pos_bound p ltac:(lia)).
    cbn [holds_integer cond_Zopp]. unfold int_exponent.
    rewrite int_mantissa_value by lia.
    rewrite Z.max_r, Z.max_l by lia. rewrite Z.mul_1_r.
    f_equal. f_equal. lia.
Qed.

(** [-1.0f + samples] is [samples - 1] as long as [samples] is a float. *)
Lemma samples_minus_1_configured (n : Z) :
  0 <= n <= 2 ^ 24 -> samples_minus_1 (configured n) = of_int (n - 1).
Proof.
  intros Hn. cbn [samples_minus_1 configured WindowFunction_begin].
  destruct (Z.eq_dec n 0) as [->|H0]; [reflexivity|].
  destruct (Z.eq_dec n 1) as [->|H1]; [reflexivity|].
  destruct (Z.eq_dec n (2 ^ 24)) as [->|H2]; [vm_compute; reflexivity|].
  apply samples_minus_1_exact. lia.
Qed.

Lemma ratio_zero (n : Z) : 2 <= n <= 2 ^ 24 -> ratio (configured n) 0 = zero.
Proof.
  intros Hn. unfold ratio.
  rewrite samples_minus_1_configured by lia.
  destruct (n - 1) as [|p|p] eqn:Hp; try lia.
  rewrite of_int_exact by lia. reflexivity.
Qed.

(** ** The formulas at ratio 0 *)

Section EdgeFacts.
Context `{Libm}.

Lemma clamped_at_zero (k : variant) (n : Z) (v : float) :
  2 <= n <= 2 ^ 24 -> cos_of_zero -> edge_factor k = Some v ->
  clamped k (configured n) 0 = v.
Proof.
  intros Hn H0 Hk. unfold cos_of_zero in H0.
  pose proof (ratio_zero n Hn) as Hr.
  unfold clamped, impl_factor_internal, variant_impl. cbn [fst].
  destruct k; cbn [edge_factor] in Hk; try discriminate; injection Hk as <-;
    unfold Rectange_factor_internal, Hamming_factor_internal, Hann_factor_internal,
      Nuttall_factor_internal, Blackman_factor_internal,
      BlackmanNuttall_factor_internal, BlackmanHarris_factor_internal,
      FlatTop_factor_internal; cbv zeta; rewrite ?Hr;
    change (fmul twoPi zero) with zero; change (fmul fourPi zero) with zero;
    change (fmul sixPi zero) with zero; rewrite ?H0; try reflexivity.
  (* Rectange: 0 is inside the frame *)
  change (i_samples (configured n)) with n.
  replace ((0 <? 0) || (n <=? 0)) with false; [reflexivity|].
  symmetry. apply orb_false_iff. split; [reflexivity | apply Z.leb_gt; lia].
Qed.

End EdgeFacts.

(** ** Indices outside the frame, and a cache that was never filled *)

Section OutsideFacts.
Context {E : Type} `{WindowImpl E}.

(** Outside the frame a BufferedWindow returns 0, whatever it wraps and
    whatever its cache holds. *)
Lemma factor_buffered_outside (base : WindowFunction) (p_wf : window E)
    (buffer : Vector) (n idx : Z) :
  1 <= n <= INT_MAX -> int_range idx -> idx < 0 \/ n <= idx ->
  factor (BufferedWindow (WindowFunction_begin base n) p_wf buffer) idx
  = Ok (zero, BufferedWindow (WindowFunction_begin base n) p_wf buffer).
Proof.
  intros Hn Hi Hout.
  destruct (int_half_bounds n ltac:(lia)) as (H0 & H1 & H2).
  apply (factor_returns _ _ idx zero); [reflexivity|].
  cbn [factor_internal fields i_half_samples WindowFunction_begin].
  set (j := evaluated_index _ idx).
  replace ((j <? 0) || (int_half n <? j)) with true; [reflexivity|].
  symmetry. apply orb_true_iff. left. apply Z.ltb_lt.
  subst j. unfold evaluated_index. cbn [i_half_samples i_samples WindowFunction_begin].
  destruct (idx <=? int_half n) eqn:Hle.
  - apply Z.leb_le in Hle. lia.
  - apply Z.leb_gt in Hle. unfold int_sub.
    rewrite (wrap_id (n - idx)) by int_lia. rewrite wrap_id by int_lia. lia.
Qed.

(** [begin(n)] on a BufferedWindow around a window that is at length [n]
    assigns the fields and nothing else. *)
Lemma begin_buffered_preconfigured (base : WindowFunction) (p_wf : window E)
    (buffer : Vector) (n : Z) :
  samples p_wf = n ->
  begin (BufferedWindow base p_wf buffer) n = Ok (BufferedWindow (configured n) p_wf buffer).
Proof.
  intros Hs. cbn [begin]. rewrite Hs, Z.eqb_refl. reflexivity.
Qed.

Lemma factor_aborts (w : window E) (idx : Z) (e : error) :
  i_half_samples (fields w) = int_half (i_samples (fields w)) ->
  factor_internal w (evaluated_index (fields w) idx) = Abort e ->
  factor w idx = Abort e.
Proof.
  unfold factor, evaluated_index. intros Ha Hr.
  rewrite Ha, Z.eqb_refl. cbn [negb]. rewrite <- Ha.
  destruct (idx <=? i_half_samples (fields w)); rewrite Hr; reflexivity.
Qed.

Lemma factor_empty_cache (p_wf : window E) (n idx : Z) :
  1 <= n <= INT_MAX -> 0 <= idx < n ->
  factor (BufferedWindow (configured n) p_wf []) idx = Abort IndexOutOfRange.
Proof.
  intros Hn Hidx. pose proof (evaluated_index_range n idx Hn Hidx) as Hj.
  apply factor_aborts; [reflexivity|].
  cbn [fields factor_internal]. set (j := evaluated_index (configured n) idx) in *.
  change (i_half_samples (configured n)) with (int_half n).
  replace ((j <? 0) || (int_half n <? j)) with false
    by (symmetry; apply orb_false_iff; split; apply Z.ltb_ge; lia).
  unfold Vector_get, Vector_size. cbn [length].
  replace ((0 <=? j) && (j <? Z.of_nat 0)) with false; [reflexivity|].
  symmetry. apply andb_false_iff. right. apply Z.ltb_ge. lia.
Qed.

End OutsideFacts.

Section OutsideSourceFacts.
Context `{Libm}.

(** After [begin(n)] the window a BufferedWindow wraps is at length [n]. *)
Lemma begin_wrapped_samples (base base' : WindowFunction) (p p' : window variant)
    (buf buf' : Vector) (n : Z) :
  begin (BufferedWindow base p buf) n = Ok (BufferedWindow base' p' buf') ->
  samples p' = n /\ base' = WindowFunction_begin base n.
Proof.
  cbn [begin]. destruct (samples p =? n) eqn:Hs; cbn [negb].
  - apply Z.eqb_eq in Hs. intros [= <- <- _]. split; [exact Hs | reflexivity].
  - destruct (begin p n) as [p1|e] eqn:Hb; cbn [bind]; [|discriminate].
    pose proof (begin_fields _ _ _ Hb) as Hf.
    assert (Hs1 : samples p1 = n) by (unfold samples; rewrite Hf; reflexivity).
    destruct (negb (Vector_size buf =? _)).
    + destruct (fill _ p1 _) as [[p2 buf2]|e] eqn:Hfill; cbn [bind]; [|discriminate].
      apply fill_state in Hfill as ->.
      intros [= <- <- _]. split; [exact Hs1 | reflexivity].
    + intros [= <- <- _]. split; [exact Hs1 | reflexivity].
Qed.

(** [begin] turns a BufferedWindow into a BufferedWindow. *)
Lemma begin_buffered_is_buffered (base b1 : WindowFunction) (p : window variant)
    (buf : Vector) (k1 : variant) (n : Z) :
  begin (BufferedWindow base p buf) n <> Ok (Window b1 k1).
Proof.
  cbn [begin].
  destruct (negb (samples p =? n)); [|discriminate].
  destruct (begin p n); cbn [bind]; [|discriminate].
  destruct (negb (Vector_size buf =? _)); [|discriminate].
  destruct (fill _ _ _) as [[? ?]|]; cbn [bind]; discriminate.
Qed.

(** Outside the frame the Rectange window is 0: with C8, it is the
    indicator of [0, N). *)
Lemma factor_rectangle_outside (n idx : Z) :
  1 <= n <= INT_MAX -> int_range idx -> idx < 0 \/ n <= idx ->
  factor (Window (configured n) Rectange) idx = Ok (zero, Window (configured n) Rectange).
Proof.
  intros Hn Hi Hout.
  destruct (int_half_bounds n ltac:(lia)) as (H0 & H1 & H2).
  rewrite (factor_leaf Rectange (configured n) idx eq_refl).
  unfold clamped, impl_factor_internal, variant_impl, Rectange_factor_internal.
  cbn [fst]. change (i_samples (configured n)) with n.
  set (j := evaluated_index (configured n) idx).
  assert (Hj : j < 0 \/ n <= j).
  { subst j. unfold evaluated_index.
    change (i_half_samples (configured n)) with (int_half n).
    change (i_samples (configured n)) with n.
    destruct (idx <=? int_half n) eqn:Hle.
    - apply Z.leb_le in Hle. lia.
    - apply Z.leb_gt in Hle. unfold int_sub.
      rewrite (wrap_id (n - idx)) by int_lia. rewrite wrap_id by int_lia. lia. }
  replace ((j <? 0) || (n <=? j)) with true; [reflexivity|].
  symmetry. apply orb_true_iff.
  destruct Hj; [left; apply Z.ltb_lt | right; apply Z.leb_le]; lia.
Qed.

End OutsideSourceFacts.

(** ** Multiplying and dividing by 2, and dividing a float by itself *)

(** A mantissa of 24 bits followed by [k] zero bits is shifted back. *)
Lemma binary_round_aux_shifted (s : bool) (m k : positive) (e : Z) :
  Zpos (digits2_pos m) = 24 -> -149 <= e + Zpos k <= 104 ->
  binary_round_aux prec emax s (Zpos (Pos.iter xO m k)) e loc_Exact
  = S754_finite s m (e + Zpos k).
Proof.
  intros Hd He. unfold binary_round_aux, shr_fexp. cbn [shr_record_of_loc Zdigits2].
  rewrite digits2_pos_iter_xO, Pos2Z.inj_add, Hd.
  assert (Hf : fexp prec emax (24 + Zpos k + e) - e = Zpos k).
  { unfold fexp, emin, prec, emax. lia. }
  rewrite Hf. cbn [shr]. rewrite iter_shr_1_exact.
  cbn [shr_m loc_of_shr_record round_nearest_even Zdigits2].
  rewrite Hd.
  assert (Hf' : fexp prec emax (24 + (e + Zpos k)) - (e + Zpos k) = 0).
  { unfold fexp, emin, prec, emax. lia. }
  rewrite Hf'. cbn [shr shr_m].
  replace (e + Zpos k <=? emax - prec) with true; [reflexivity|].
  symmetry. apply Z.leb_le. unfold emax, prec. lia.
Qed.

(** [2.0f * x] and [x / 2.0f] move the exponent. *)
Lemma fmul_two (s : bool) (m : positive) (e : Z) :
  Zpos (digits2_pos m) = 24 -> -149 <= e + 1 <= 104 ->
  fmul two (S754_finite s m e) = S754_finite s m (e + 1).
Proof.
  intros Hd He. unfold fmul, two. cbn [SFmul xorb].
  change (8388608 * m)%positive with (Pos.iter xO m 23).
  rewrite binary_round_aux_shifted by (assumption || lia).
  f_equal. lia.
Qed.

Lemma fdiv_two (s : bool) (m : positive) (e : Z) :
  Zpos (digits2_pos m) = 24 -> -146 <= e <= 104 ->
  fdiv (S754_finite s m e) two = S754_finite s m (e - 1).
Proof.
  intros Hd He. unfold fdiv, two. cbn [SFdiv].
  unfold SFdiv_core_binary. cbn [Zdigits2]. rewrite Hd.
  change (Zpos (digits2_pos 8388608)) with 24.
  assert (He' : Z.min (fexp prec emax (24 + e - (24 + -22))) (e - -22) = e - 2).
  { unfold fexp, emin, prec, emax. lia. }
  rewrite He'. replace (e - -22 - (e - 2)) with 24 by lia.
  rewrite Z.shiftl_mul_pow2 by lia.
  assert (Hdiv : Z.div_eucl (Zpos m * 2 ^ 24) 8388608 = (Zpos (xO m), 0)).
  { pose proof (Z.div_eucl_eq (Zpos m * 2 ^ 24) 8388608 ltac:(lia)) as Heq.
    pose proof (Z.mod_pos_bound (Zpos m * 2 ^ 24) 8388608 ltac:(lia)) as Hb.
    unfold Z.modulo in Hb.
    destruct (Z.div_eucl (Zpos m * 2 ^ 24) 8388608) as [q r].
    change (2 ^ 24) with (2 * 8388608) in Heq.
    assert (q = 2 * Zpos m) by nia. assert (r = 0) by nia. subst. reflexivity. }
  change IntDef.Z.div_eucl with Z.div_eucl.
  rewrite Hdiv. change (new_location 8388608 0) with loc_Exact.
  rewrite xorb_false_r.
  change (xO m) with (Pos.iter xO m 1).
  rewrite binary_round_aux_shifted by (assumption || lia).
  f_equal. lia.
Qed.

(** [x / x] is 1, and [-x / x] is -1, for every finite [x] that is not 0. *)
Lemma fdiv_self (s : bool) (m : positive) (e : Z) :
  fdiv (S754_finite s m e) (S754_finite false m e) = S754_finite s 8388608 (-23).
Proof.
  unfold fdiv. cbn [SFdiv]. unfold SFdiv_core_binary.
  rewrite !Z.sub_diag. change (Z.min (fexp prec emax 0) 0) with (-24).
  change (0 - -24) with 24. cbv iota.
  rewrite Z.shiftl_mul_pow2 by lia.
  assert (Hdiv : Z.div_eucl (Zpos m * 2 ^ 24) (Zpos m) = (2 ^ 24, 0)).
  { pose proof (Z.div_eucl_eq (Zpos m * 2 ^ 24) (Zpos m) ltac:(lia)) as Heq.
    pose proof (Z.mod_pos_bound (Zpos m * 2 ^ 24) (Zpos m) ltac:(lia)) as Hb.
    unfold Z.modulo in Hb.
    destruct (Z.div_eucl (Zpos m * 2 ^ 24) (Zpos m)) as [q r].
    assert (q = 2 ^ 24) by nia. assert (r = 0) by nia. subst. reflexivity. }
  change IntDef.Z.div_eucl with Z.div_eucl.
  rewrite Hdiv.
  assert (Hloc : new_location (Zpos m) 0 = loc_Exact).
  { unfold new_location. destruct (IntDef.Z.even (Zpos m)); reflexivity. }
  rewrite Hloc. rewrite xorb_false_r. destruct s; reflexivity.
Qed.

(** ** Triangle and Welch at index 1 *)

Section ShiftedFacts.
Context `{Libm}.

(** Both formulas take [idx - 1] where the others take [idx]: at
    index 1 they are at the start of the window, which is 0. *)
Lemma shifted_formulas_at_one (k : variant) (n : Z) :
  k = Triangle \/ k = Welch ->
  2 <= n <= 2 ^ 24 ->
  clamped k (configured n) 1 = zero.
Proof.
  intros Hk Hn.
  pose proof (samples_minus_1_configured n ltac:(lia)) as Hs.
  destruct (n - 1) as [|p|p] eqn:Hp; try lia.
  rewrite of_int_exact in Hs by lia.
  pose proof (int_mantissa_digits p ltac:(lia)) as Hd.
  pose proof (digits2_pos_bound p ltac:(lia)) as Hb.
  assert (He : -23 <= int_exponent p <= 0) by (unfold int_exponent; lia).
  unfold clamped, impl_factor_internal, variant_impl. cbn [fst].
  destruct Hk as [-> | ->].
  - unfold Triangle_factor_internal.
    change (i_samples (configured n)) with n.
    replace (int_sub n 1) with (Zpos p)
      by (unfold int_sub; rewrite wrap_id; [lia | unfold int_range, INT_MIN, INT_MAX; lia]).
    change (of_int (int_sub 1 1)) with zero.
    rewrite Hs, of_int_exact by lia.
    rewrite fdiv_two by (assumption || lia).
    change (fsub zero (S754_finite false (int_mantissa p) (int_exponent p - 1)))
      with (S754_finite true (int_mantissa p) (int_exponent p - 1)).
    change (fabs (S754_finite true (int_mantissa p) (int_exponent p - 1)))
      with (S754_finite false (int_mantissa p) (int_exponent p - 1)).
    rewrite fmul_two by (assumption || lia).
    replace (int_exponent p - 1 + 1) with (int_exponent p) by lia.
    rewrite fdiv_self. reflexivity.
  - unfold Welch_factor_internal. cbv zeta.
    change (of_int (int_sub 1 1)) with zero.
    rewrite Hs.
    rewrite fdiv_two by (assumption || lia).
    change (fsub zero (S754_finite false (int_mantissa p) (int_exponent p - 1)))
      with (S754_finite true (int_mantissa p) (int_exponent p - 1)).
    rewrite fdiv_self. reflexivity.
Qed.

End ShiftedFacts.

(** ** BufferedWindows around BufferedWindows *)

Section NestedGenericFacts.
Context {E : Type} `{WindowImpl E}.

(** The loop over a window whose [factor] returns [f j] and leaves it as
    it is. *)
Lemma fill_stable (p : window E) (f : Z -> float) (len : nat) :
  forall pre rest : Vector,
    length rest = len ->
    (forall j : Z, Z.of_nat (length pre) <= j < Z.of_nat (length pre + len) ->
                   factor p j = Ok (f j, p)) ->
    fill (seqZ (Z.of_nat (length pre)) (Z.of_nat len)) p (pre ++ rest)
    = Ok (p, pre ++ map f (seqZ (Z.of_nat (length pre)) (Z.of_nat len))).
Proof.
  induction len as [|len IH]; intros pre rest Hrest Hf.
  - destruct rest; [|discriminate]. reflexivity.
  - destruct rest as [|x rest]; [discriminate|]. injection Hrest as Hrest.
    rewrite seqZ_cons by lia.
    replace (Z.pred (Z.of_nat (S len))) with (Z.of_nat len) by lia.
    replace (Z.succ (Z.of_nat (length pre)))
      with (Z.of_nat (length (pre ++ [f (Z.of_nat (length pre))])))
      by (rewrite length_app; simpl; lia).
    cbn [fill map].
    rewrite Hf by lia. cbn [bind].
    rewrite Vector_set_inside. cbn [bind].
    rewrite (cons_middle _ pre rest), app_assoc.
    rewrite IH; [|exact Hrest|].
    + rewrite <- app_assoc. reflexivity.
    + intros j Hj. apply Hf. rewrite length_app in Hj. simpl in Hj. lia.
Qed.

End NestedGenericFacts.

Section NestedFacts.
Context `{Libm}.

Lemma samples_nested_new (d : nat) (k : variant) : samples (nested_new d k) = 0.
Proof. destruct d; reflexivity. Qed.

(** A BufferedWindow that holds the cache of class [k] for length [n]
    returns the factors of that class, whatever it wraps. *)
Lemma factor_cache (k : variant) (p_wf : window variant) (n idx : Z) :
  1 <= n <= INT_MAX -> 0 <= idx < n ->
  factor (BufferedWindow (configured n) p_wf (cache k n)) idx
  = Ok (clamped k (configured n) (evaluated_index (configured n) idx),
        BufferedWindow (configured n) p_wf (cache k n)).
Proof.
  intros Hn Hidx.
  pose proof (evaluated_index_range n idx Hn Hidx) as Hj.
  set (bw := BufferedWindow (configured n) p_wf (cache k n)).
  set (j := evaluated_index (configured n) idx) in *.
  assert (Hfi : factor_internal bw j = Ok (clamped k (configured n) j, bw)).
  { unfold bw at 1. cbn [factor_internal].
    cbn [i_half_samples configured WindowFunction_begin].
    replace ((j <? 0) || (int_half n <? j)) with false
      by (symmetry; apply orb_false_iff; split; apply Z.ltb_ge; lia).
    unfold Vector_get. rewrite Vector_size_cache by lia.
    replace ((0 <=? j) && (j <? int_half n + 1)) with true
      by (symmetry; apply andb_true_iff; split;
          [apply Z.leb_le | apply Z.ltb_lt]; lia).
    unfold cache.
    change (map (clamped k (configured n)))
      with (fmap (M:=list) (clamped k (configured n))).
    rewrite list_lookup_fmap, lookup_seqZ_lt by lia.
    cbn [fmap option_fmap option_map bind].
    rewrite Z2Nat.id by lia. reflexivity. }
  rewrite (factor_returns bw bw idx _ eq_refl Hfi).
  unfold clamped. rewrite clamp_idempotent. reflexivity.
Qed.

Lemma factor_nested (d : nat) (k : variant) (n idx : Z) :
  1 <= n <= INT_MAX -> 0 <= idx < n ->
  factor (nested d k n) idx
  = Ok (clamped k (configured n) (evaluated_index (configured n) idx), nested d k n).
Proof.
  intros Hn Hidx. destruct d as [|d].
  - exact (factor_leaf k (configured n) idx eq_refl).
  - exact (factor_cache k (nested d k n) n idx Hn Hidx).
Qed.

Lemma begin_nested (d : nat) (k : variant) (n : Z) :
  1 <= n <= INT_MAX -> begin (nested_new d k) n = Ok (nested d k n).
Proof.
  intros Hn. induction d as [|d IH]; [reflexivity|].
  cbn [nested_new nested]. unfold BufferedWindow_new. cbn [begin].
  rewrite samples_nested_new.
  replace (0 =? n) with false by (symmetry; apply Z.eqb_neq; lia).
  cbn [negb]. rewrite IH. cbn [bind i_half_samples WindowFunction_begin].
  destruct (int_half_bounds n ltac:(lia)) as (Hh0 & Hh1 & Hh2).
  assert (Hsize : int_add (int_half n) 1 = int_half n + 1)
    by (unfold int_add; apply wrap_id; int_lia).
  rewrite Hsize.
  replace (Vector_size [] =? int_half n + 1) with false
    by (symmetry; apply Z.eqb_neq; unfold Vector_size; simpl; lia).
  cbn [negb].
  change (WindowFunction_begin WindowFunction_new n) with (configured n).
  pose proof (fill_stable (nested d k n) (clamped k (configured n))
                (Z.to_nat (int_half n + 1)) [] (Vector_resize [] (int_half n + 1)))
    as Hfill.
  cbn [length Nat.add app] in Hfill. rewrite Z2Nat.id in Hfill by lia.
  change (Z.of_nat 0) with 0 in Hfill.
  rewrite Hfill; [reflexivity| |].
  - pose proof (Vector_size_resize [] (int_half n + 1) ltac:(lia)) as Hr.
    unfold Vector_size in Hr. lia.
  - intros j Hj. rewrite factor_nested by lia.
    rewrite evaluated_index_low
      by (change (i_half_samples (configured n)) with (int_half n); lia).
    reflexivity.
Qed.

End NestedFacts.

(** ** C strings and the array of [BufferedWindow::name] *)

Lemma c_str_app (s rest : list char) :
  Forall (fun c => c <> NUL) s -> c_str (s ++ rest) = s ++ c_str rest.
Proof.
  induction 1 as [|c s Hc _ IH]; [reflexivity|].
  cbn. destruct (Ascii.eqb c NUL) eqn:He.
  - apply Ascii.eqb_eq in He. contradiction.
  - rewrite IH. reflexivity.
Qed.

Lemma c_str_no_nul (mem : list char) : Forall (fun c => c <> NUL) (c_str mem).
Proof.
  induction mem as [|c mem IH]; cbn; [constructor|].
  destruct (Ascii.eqb c NUL) eqn:He; [constructor|].
  constructor; [|exact IH]. intros ->. rewrite Ascii.eqb_refl in He. discriminate.
Qed.

Lemma c_str_padding (k : nat) (rest : list char) :
  c_str (replicate k NUL ++ NUL :: rest) = [].
Proof. destruct k; reflexivity. Qed.

Lemma strncpy_written_length (src : list char) (n : nat) :
  length (strncpy_written src n) = n.
Proof.
  unfold strncpy_written. rewrite length_app, length_take, length_replicate. lia.
Qed.

Lemma name_buffer_new_ok : name_buffer_ok name_buffer_new.
Proof. repeat split. Qed.

(** One call: the string returned, and the array kept as every call
    expects it. *)
Lemma BufferedWindow_name_ok (buffer wrapped : list char) :
  name_buffer_ok buffer ->
  snd (BufferedWindow_name buffer wrapped)
  = chars "Buffered "%string ++ take 69 (c_str wrapped) /\
  name_buffer_ok (fst (BufferedWindow_name buffer wrapped)).
Proof.
  intros (Hlen & Hpre & Hend). unfold BufferedWindow_name, write_at. cbn [fst snd].
  rewrite strncpy_written_length. change (9 + 69)%nat with 78%nat.
  rewrite Hpre, Hend. split.
  - rewrite c_str_app by (repeat constructor; discriminate).
    f_equal. unfold strncpy_written. rewrite <- app_assoc.
    rewrite c_str_app by (apply Forall_take, c_str_no_nul).
    rewrite c_str_padding, app_nil_r. reflexivity.
  - unfold name_buffer_ok. split; [|split].
    + rewrite !length_app, strncpy_written_length. reflexivity.
    + reflexivity.
    + rewrite app_assoc. apply drop_app_length'.
      rewrite length_app, strncpy_written_length. reflexivity.
Qed.

Lemma foldl_name_buffer_ok (ks : list variant) :
  forall buffer : list char,
    name_buffer_ok buffer ->
    name_buffer_ok
      (foldl (fun buffer k => fst (BufferedWindow_name buffer (variant_name k))) buffer ks).
Proof.
  induction ks as [|k ks IH]; intros buffer Hok; [exact Hok|].
  cbn [foldl]. apply IH. apply BufferedWindow_name_ok, Hok.
Qed.

Lemma name_buffer_after_ok (ks : list variant) : name_buffer_ok (name_buffer_after ks).
Proof. apply foldl_name_buffer_ok, name_buffer_new_ok. Qed.

(** The names of the source fit: none has 69 characters or a NUL. *)
Lemma variant_name_fits (k : variant) : take 69 (c_str (variant_name k)) = variant_name k.
Proof. destruct k; reflexivity. Qed.

(** ** Rounding, in integers *)
















(** ** Rounding, in real numbers *)

Section RealArithmetic.
Local Open Scope R_scope.












(** *** The operations *)


















(** *** Constants, and the two windows of one cosine *)









(** *** The quotient *)





(** *** [ratio] *)







(** *** The cosine of the real numbers *)




(** *** The three Blackman windows in real numbers

    With the coefficients as the floats hold them, each sum of cosines
    stays above a margin that the rounding errors do not reach. *)








(** *** The three Blackman windows in floats *)






Section Cosine.
Context `{Libm}.







End Cosine.

End RealArithmetic.

(** ** The classes that stay above 0 *)


Section LowerBound.
Context `{Libm}.


End LowerBound.

(** * The claims *)

Section Claims.
Context `{Libm}.


(** C2: where the code departs from the claim. Triangle and Welch
    evaluate their formula at [idx - 1], so the two middle factors of an
    even frame differ: for N = 4, [factor(1)] is 0 and [factor(2)] is 2/3
    (Triangle), and 0 and 8/9 (Welch). *)
Theorem C2_middle_pair_differs :
  (exists w : window variant,
     begin (Window_new Triangle) 4 = Ok w /\
     factor w 1 = Ok (zero, w) /\
     factor w (4 - 1 - 1) = Ok (S754_finite false 11184810 (-24), w)) /\
  (exists w : window variant,
     begin (Window_new Welch) 4 = Ok w /\
     factor w 1 = Ok (zero, w) /\
     factor w (4 - 1 - 1) = Ok (S754_finite false 14913081 (-24), w)).
Proof.
  split; eexists; (split; [reflexivity|]); split; vm_compute; reflexivity.
Qed.

(** C3, as amended. After [begin(N)], for any int N and any window:
    (a) a factor is never greater than 1.0: it is at most 1.0 or it is
    NaN, which the clamp lets through; (b) for half_samples < idx < N,
    [factor(idx)] is [factor(N - idx - 1)]: the same value, or the same
    failure. *)
Theorem C3_clamped_and_mirrored (w0 w : window variant) (n : Z) :
  int_range n ->
  begin w0 n = Ok w ->
  (forall (idx : Z) (v : float) (w' : window variant),
     factor w idx = Ok (v, w') ->
     fgt v one = false /\ (v = NaN \/ fle v one = true)) /\
  (forall idx : Z,
     int_half n < idx < n -> factor w idx = factor w (n - idx - 1)).
Proof.
  intros Hn Hb. split.
  - intros idx v w'. apply factor_at_most_one.
  - intros idx Hidx.
    pose proof (begin_fields _ _ _ Hb) as Hf.
    assert (Hs : i_samples (fields w) = n) by (rewrite Hf; reflexivity).
    assert (Hh : i_half_samples (fields w) = int_half n) by (rewrite Hf; reflexivity).
    pose proof (factor_mirror w idx) as Hm. rewrite Hs, Hh in Hm.
    apply Hm; auto.
Qed.

(** C4. A BufferedWindow constructed around a new Hamming window, and a
    plain Hamming window, both after [begin(8)]: any sequence of [factor]
    calls with indices in [0, 8), in any order and with repetitions,
    returns the same factors on both, one for each call, and leaves both
    objects as they were. *)
Theorem C4_buffered_hamming_agrees (idxs : list Z) :
  Forall (fun idx => 0 <= idx < 8) idxs ->
  exists (bw hw : window variant) (vs : list float),
    begin (BufferedWindow_new (Window_new Hamming)) 8 = Ok bw /\
    begin (Window_new Hamming) 8 = Ok hw /\
    run bw (map Factor idxs) = Ok (bw, vs) /\
    run hw (map Factor idxs) = Ok (hw, vs) /\
    length vs = length idxs.
Proof.
  intros Hall.
  assert (Hn : 1 <= 8 <= INT_MAX) by (unfold INT_MAX; lia).
  exists (buffered Hamming 8), (Window (configured 8) Hamming).
  induction Hall as [|idx idxs Hidx _ (vs & _ & _ & Hb & Hp & Hlen)].
  - exists []. split; [exact (begin_buffered_new Hamming 8 Hn)|].
    repeat split; reflexivity.
  - exists (clamped Hamming (configured 8) (evaluated_index (configured 8) idx) :: vs).
    split; [exact (begin_buffered_new Hamming 8 Hn)|]. split; [reflexivity|].
    cbn [map run].
    rewrite (factor_buffered Hamming 8 idx Hn Hidx).
    rewrite (factor_leaf Hamming (configured 8) idx eq_refl).
    cbn [bind]. rewrite Hb, Hp. cbn [bind].
    repeat split. simpl. f_equal. exact Hlen.
Qed.

(** C6: where the code departs from the claim. A BufferedWindow taken
    from frame length 8 to 9 keeps half_samples = 4 and with it the cache
    of length 8: [factor(0)] is the -2/7 of a Triangle of 8 samples, where
    a fresh instance after [begin(9)] gives -1/4. *)
Theorem C6_cache_survives_length_change :
  exists w8 w89 w9 : window variant,
    begin (BufferedWindow_new (Window_new Triangle)) 8 = Ok w8 /\
    begin w8 9 = Ok w89 /\
    begin (BufferedWindow_new (Window_new Triangle)) 9 = Ok w9 /\
    i_half_samples (fields w89) = int_half 9 /\
    factor w89 0 = Ok (S754_finite true 9586980 (-25), w89) /\
    factor w9 0 = Ok (S754_finite true 8388608 (-25), w9).
Proof.
  do 3 eexists.
  split; [reflexivity|]. split; [vm_compute; reflexivity|].
  split; [reflexivity|]. repeat split; vm_compute; reflexivity.
Qed.

(** C7. [half_samples == samples / 2] holds of every object a program
    can reach by constructing windows and calling [begin] and [factor],
    at every level of wrapping; on such an object neither [factor] nor
    [begin] (which calls the wrapped window's [factor]) stops at the
    assertion. *)
Theorem C7_half_samples_invariant (w : window variant) :
  reachable w ->
  half_samples_ok w /\
  (forall idx : Z, factor w idx <> Abort AssertionFailed) /\
  (forall n : Z, begin w n <> Abort AssertionFailed).
Proof.
  intros Hr. pose proof (reachable_half_samples_ok w Hr) as Hok.
  split; [exact Hok|]. split.
  - intros idx. apply factor_not_assertion, half_samples_ok_fields, Hok.
  - intros n. apply begin_not_assertion, Hok.
Qed.

(** C8. Rectangle: after [begin(N)], N >= 1, [factor(idx)] returns 1.0
    for every idx in [0, N). *)
Theorem C8_rectangle_is_one (n idx : Z) :
  1 <= n <= INT_MAX ->
  0 <= idx < n ->
  exists w : window variant,
    begin (Window_new Rectange) n = Ok w /\ factor w idx = Ok (one, w).
Proof.
  intros Hn Hidx. exists (Window (configured n) Rectange). split; [reflexivity|].
  rewrite (factor_leaf Rectange (configured n) idx eq_refl).
  pose proof (evaluated_index_range n idx Hn Hidx) as Hj.
  set (j := evaluated_index (configured n) idx) in *.
  assert (Hjn : j < n) by (pose proof (int_half_bounds n); lia).
  unfold clamped, impl_factor_internal, variant_impl, Rectange_factor_internal.
  cbn [fst i_samples configured WindowFunction_begin].
  replace ((j <? 0) || (n <=? j)) with false
    by (symmetry; apply orb_false_iff; split;
        [apply Z.ltb_ge | apply Z.leb_gt]; lia).
  reflexivity.
Qed.

(** C9, as amended. Two classes guard the index: Rectangle's
    [factor_internal] returns 0 for idx < 0 and for idx >= samples, and
    BufferedWindow's returns 0 for idx outside [0, half_samples], without
    touching the cache. *)
Theorem C9_guarded_classes_return_zero (base : WindowFunction) (idx : Z) :
  (idx < 0 \/ i_samples base <= idx ->
   factor_internal (Window base Rectange) idx = Ok (zero, Window base Rectange)) /\
  (forall (p_wf : window variant) (buffer : Vector),
     idx < 0 \/ i_half_samples base < idx ->
     factor_internal (BufferedWindow base p_wf buffer) idx
     = Ok (zero, BufferedWindow base p_wf buffer)).
Proof.
  split.
  - intros Hout. simpl.
    unfold impl_factor_internal, variant_impl, Rectange_factor_internal.
    replace ((idx <? 0) || (i_samples base <=? idx)) with true; [reflexivity|].
    symmetry. apply orb_true_iff.
    destruct Hout; [left; apply Z.ltb_lt | right; apply Z.leb_le]; lia.
  - intros p_wf buffer Hout. simpl.
    replace ((idx <? 0) || (i_half_samples base <? idx)) with true; [reflexivity|].
    symmetry. apply orb_true_iff.
    destruct Hout; [left | right]; apply Z.ltb_lt; lia.
Qed.

(** C10. A [factor] call that returns leaves the object as it was: the
    three fields and, for a BufferedWindow, the cache and the wrapped
    window, for any index. *)
Theorem C10_factor_leaves_state (w w' : window variant) (idx : Z) (v : float) :
  factor w idx = Ok (v, w') -> w' = w.
Proof. apply factor_state. Qed.

(** Beyond C4: for every class and every frame length N >= 1, a new
    BufferedWindow around a new window returns, after [begin(N)], for
    every idx in [0, N) the factor the plain window returns. *)
Theorem buffered_agrees_with_plain (k : variant) (n idx : Z) :
  1 <= n <= INT_MAX ->
  0 <= idx < n ->
  exists (bw hw : window variant) (v : float),
    begin (BufferedWindow_new (Window_new k)) n = Ok bw /\
    begin (Window_new k) n = Ok hw /\
    factor bw idx = Ok (v, bw) /\
    factor hw idx = Ok (v, hw).
Proof.
  intros Hn Hidx.
  exists (buffered k n), (Window (configured n) k),
         (clamped k (configured n) (evaluated_index (configured n) idx)).
  split; [exact (begin_buffered_new k n Hn)|]. split; [reflexivity|].
  split; [exact (factor_buffered k n idx Hn Hidx)|].
  exact (factor_leaf k (configured n) idx eq_refl).
Qed.

(** Beyond C6: what a second [begin] does. A leaf window is configured
    as by a single [begin(N2)]. A BufferedWindow is too when N1/2 and
    N2/2 differ; when they are equal it keeps the cache of N1. *)
Theorem begin_again (k : variant) (n1 n2 : Z) :
  1 <= n1 <= INT_MAX ->
  1 <= n2 <= INT_MAX ->
  n1 <> n2 ->
  (exists w1 : window variant,
     begin (Window_new k) n1 = Ok w1 /\
     begin w1 n2 = begin (Window_new k) n2) /\
  (exists w1 : window variant,
     begin (BufferedWindow_new (Window_new k)) n1 = Ok w1 /\
     begin w1 n2
     = Ok (BufferedWindow (configured n2) (Window (configured n2) k)
             (if int_half n1 =? int_half n2 then cache k n1 else cache k n2)) /\
     (int_half n1 <> int_half n2 ->
      begin w1 n2 = begin (BufferedWindow_new (Window_new k)) n2)).
Proof.
  intros Hn1 Hn2 Hne. split.
  - eexists. split; reflexivity.
  - exists (buffered k n1). split; [exact (begin_buffered_new k n1 Hn1)|].
    split; [exact (begin_buffered_again k n1 n2 Hn1 Hn2 Hne)|].
    intros Hh. rewrite (begin_buffered_again k n1 n2 Hn1 Hn2 Hne).
    rewrite (begin_buffered_new k n2 Hn2).
    replace (int_half n1 =? int_half n2) with false
      by (symmetry; apply Z.eqb_neq; exact Hh).
    reflexivity.
Qed.

(** Beyond the claims: Hamming at N = 5 starts at 0.08 (the float
    0.08000001), given cos(0) = 1. *)
Theorem hamming5_first_factor :
  cos_of_zero ->
  exists w : window variant,
    begin (Window_new Hamming) 5 = Ok w /\
    factor w 0 = Ok (S754_finite false 10737420 (-27), w).
Proof.
  intros H0. eexists. split; [reflexivity|].
  rewrite (factor_leaf Hamming (configured 5) 0 eq_refl).
  unfold clamped, impl_factor_internal, variant_impl, Hamming_factor_internal.
  cbn [fst]. change (evaluated_index (configured 5) 0) with 0.
  change (ratio (configured 5) 0) with zero.
  change (fmul twoPi zero) with zero.
  unfold cos_of_zero in H0. rewrite H0. reflexivity.
Qed.

End Claims.

Section SpiedClaims.
Variable g : WindowFunction -> Z -> float.

(** C5, as amended. On a BufferedWindow around a spy: a [factor] call
    leaves the spy alone; a [begin(n)] call that finds the spy at length
    n does too; any other [begin(n)] (0 <= n <= INT_MAX) returns and
    adds to the spy's record nothing, or one invocation for each j in
    [0, n/2], all at frame length n. So a sequence of calls causes, for
    each frame length n, at most n/2 + 1 invocations for each time it
    changes the length to n, however many [factor] calls and repeated
    [begin(n)] calls it holds: at most n/2 + 1 for a length it does not
    return to, and at most n/2 + 1 in all when its [begin] calls all
    have one length. *)
Theorem C5_evaluations_per_length_change
    (base b : WindowFunction) (s : Spy) (buffer : Vector) :
  let bw := BufferedWindow base (Window b s) buffer in
  (forall (idx : Z) (v : float) (w' : window Spy),
     @factor Spy (spy_impl g) bw idx = Ok (v, w') -> w' = bw) /\
  (forall n : Z,
     i_samples b = n ->
     @begin Spy (spy_impl g) bw n
     = Ok (BufferedWindow (WindowFunction_begin base n) (Window b s) buffer)) /\
  (forall n : Z, 0 <= n <= INT_MAX ->
     exists (w' : window Spy) (new : list (Z * Z)),
       @begin Spy (spy_impl g) bw n = Ok w' /\
       wrapped_invocations w' = new ++ wrapped_invocations bw /\
       (new = [] \/
        (i_samples b <> n /\
         new = rev (map (fun j => (n, j)) (seqZ 0 (int_half n + 1)))))) /\
  (forall (n : Z) (cs : list call) (w' : window Spy) (vs : list float),
     @run Spy (spy_impl g) bw cs = Ok (w', vs) ->
     invocations_at n (wrapped_invocations w')
     <= invocations_at n (wrapped_invocations bw)
        + Z.max 0 (int_half n + 1) * length_changes n (i_samples b) cs) /\
  (forall (n : Z) (cs : list call) (w' : window Spy) (vs : list float),
     length_changes n (i_samples b) cs <= 1 ->
     @run Spy (spy_impl g) bw cs = Ok (w', vs) ->
     invocations_at n (wrapped_invocations w')
     <= invocations_at n (wrapped_invocations bw) + Z.max 0 (int_half n + 1)) /\
  (forall (n : Z) (cs : list call) (w' : window Spy) (vs : list float),
     begins_at n cs ->
     @run Spy (spy_impl g) bw cs = Ok (w', vs) ->
     Z.of_nat (length (wrapped_invocations w'))
     <= Z.of_nat (length (wrapped_invocations bw)) + Z.max 0 (int_half n + 1)).
Proof.
  intros bw. split; [|split; [|split; [|split; [|split]]]].
  - intros idx v w'. apply factor_buffered_state.
  - intros n Hn. subst bw. cbn [begin]. unfold samples. cbn [fields].
    rewrite Hn, Z.eqb_refl. reflexivity.
  - intros n Hn.
    assert (Hr : int_range n) by (unfold int_range, INT_MIN, INT_MAX in *; lia).
    destruct (begin_spy_returns g base b s buffer n Hr) as (w' & Hb).
    destruct (begin_spy_guarded g _ _ _ _ _ _ Hb)
      as (b' & s' & buffer' & new & -> & _ & Hs' & Hnew).
    exists (BufferedWindow (WindowFunction_begin base n) (Window b' s') buffer'), new.
    split; [exact Hb|]. split; [exact Hs'|exact Hnew].
  - intros n cs w' vs Hrun. exact (run_spy_changes g n cs _ _ _ _ _ _ Hrun).
  - intros n cs w' vs Honce Hrun.
    pose proof (run_spy_changes g n cs _ _ _ _ _ _ Hrun) as Hle.
    pose proof (length_changes_nonneg n cs (i_samples b)) as Hnn.
    subst bw. cbn [wrapped_invocations]. nia.
  - intros n cs w' vs Hcs Hrun.
    pose proof (run_spy_one_length g n cs Hcs _ _ _ _ _ _ Hrun) as Hle.
    subst bw. cbn [wrapped_invocations]. destruct (i_samples b =? n); lia.
Qed.

End SpiedClaims.

(** * Further properties of the code *)

(** [WindowFunction::begin]: for every frame length up to 2^24 the float
    [samples_minus_1] is N - 1 exactly, the denominator [ratio] is meant
    to have. The bound is sharp: 2^24 + 1 is not a float, the conversion
    rounds it to 2^24, and [samples_minus_1] is 2^24 - 1. *)
Theorem samples_minus_1_is_exact :
  (forall n : Z, 0 <= n <= 2 ^ 24 ->
     samples_minus_1 (configured n) = of_int (n - 1) /\
     holds_integer (samples_minus_1 (configured n)) (n - 1)) /\
  holds_integer (samples_minus_1 (configured (2 ^ 24 + 1))) (2 ^ 24 - 1).
Proof.
  split.
  - intros n Hn. rewrite samples_minus_1_configured by exact Hn.
    split; [reflexivity|].
    destruct (Z.eq_dec n 0) as [->|H0]; [vm_compute; reflexivity|].
    apply of_int_holds. lia.
  - vm_compute. reflexivity.
Qed.

Section FurtherGeneric.
Context {E : Type} `{WindowImpl E}.

(** [WindowFunction::factor] mirrors: after [begin(n)], for every class
    and whatever its formula, [factor(idx)] and [factor(n - 1 - idx)] are
    the same, the middle pair of an even frame apart (both of its indices
    are at most [n / 2], and each is evaluated by the formula itself). *)
Theorem factor_symmetric_off_middle (w0 w : window E) (n idx : Z) :
  1 <= n <= INT_MAX ->
  begin w0 n = Ok w ->
  0 <= idx < n ->
  Z.odd n = true \/ (idx <> int_half n - 1 /\ idx <> int_half n) ->
  factor w idx = factor w (n - 1 - idx).
Proof.
  intros Hn Hb Hidx Hmid.
  pose proof (begin_fields _ _ _ Hb) as Hf.
  assert (Hs : i_samples (fields w) = n) by (rewrite Hf; reflexivity).
  assert (Hh : i_half_samples (fields w) = int_half n) by (rewrite Hf; reflexivity).
  assert (Hr : int_range n) by (unfold int_range, INT_MIN, INT_MAX in *; lia).
  pose proof (factor_mirror w) as Hm. rewrite Hs, Hh in Hm.
  destruct (int_half_bounds n ltac:(lia)) as (H0 & H1 & H2).
  assert (Hodd : Z.odd n = true -> n = 2 * int_half n + 1).
  { intros Ho. rewrite (Zodd_div2 n) at 1.
    - unfold int_half. rewrite Z.quot_div_nonneg by lia. rewrite Z.div2_div. reflexivity.
    - apply Zodd_bool_iff. rewrite Ho. reflexivity. }
  assert (Heven : Z.odd n = false -> n = 2 * int_half n).
  { intros Ho. rewrite (Zeven_div2 n) at 1.
    - unfold int_half. rewrite Z.quot_div_nonneg by lia. rewrite Z.div2_div. reflexivity.
    - apply Zeven_bool_iff. rewrite <- Z.negb_odd, Ho. reflexivity. }
  destruct (Z.compare_spec idx (n - 1 - idx)) as [Heq|Hlt|Hgt].
  - rewrite <- Heq. reflexivity.
  - (* idx in the lower half: its mirror image is past the middle *)
    assert (Hj : int_half n < n - 1 - idx < n).
    { destruct (Z.odd n) eqn:Ho.
      - specialize (Hodd eq_refl). lia.
      - specialize (Heven eq_refl). destruct Hmid as [Hc|[Ha Hb']]; [discriminate|]. lia. }
    rewrite (Hm (n - 1 - idx) Hr eq_refl Hj). f_equal. lia.
  - assert (Hj : int_half n < idx < n).
    { destruct (Z.odd n) eqn:Ho.
      - specialize (Hodd eq_refl). lia.
      - specialize (Heven eq_refl). destruct Hmid as [Hc|[Ha Hb']]; [discriminate|]. lia. }
    rewrite (Hm idx Hr eq_refl Hj). f_equal. lia.
Qed.

(** [BufferedWindow::begin] fills the cache only when it finds the
    wrapped window at another frame length. Around a window that is at
    length n already, [begin(n)] assigns the fields and leaves the cache
    as it is; on a BufferedWindow just constructed the cache stays
    empty, and every [factor(idx)], 0 <= idx < n, reads outside it. *)
Theorem buffered_around_configured_window (p_wf : window E) (n idx : Z) :
  1 <= n <= INT_MAX ->
  0 <= idx < n ->
  samples p_wf = n ->
  (forall (base : WindowFunction) (buffer : Vector),
     begin (BufferedWindow base p_wf buffer) n
     = Ok (BufferedWindow (configured n) p_wf buffer)) /\
  (exists bw : window E,
     begin (BufferedWindow_new p_wf) n = Ok bw /\
     factor bw idx = Abort IndexOutOfRange).
Proof.
  intros Hn Hidx Hs. split.
  - intros base buffer. exact (begin_buffered_preconfigured base p_wf buffer n Hs).
  - eexists. split; [exact (begin_buffered_preconfigured _ p_wf [] n Hs)|].
    exact (factor_empty_cache p_wf n idx Hn Hidx).
Qed.

End FurtherGeneric.

Section FurtherSource.
Context `{Libm}.

(** The two ends of a window. For the eight classes whose formula takes
    the index through [ratio], every frame length from 2 to 2^24 and
    every cosine with cos(0) = 1: [factor(0)] is the value of the formula
    at ratio 0, whatever the frame length, and so is [factor(n - 1)]
    from length 3 on. Nuttall and FlatTop start and end below 0. *)
Theorem window_edges (k : variant) (n : Z) (v : float) :
  2 <= n <= 2 ^ 24 ->
  cos_of_zero ->
  edge_factor k = Some v ->
  exists w : window variant,
    begin (Window_new k) n = Ok w /\
    factor w 0 = Ok (v, w) /\
    (3 <= n -> factor w (n - 1) = Ok (v, w)).
Proof.
  intros Hn H0 Hk. exists (Window (configured n) k). split; [reflexivity|].
  assert (Hmax : n <= INT_MAX) by (unfold INT_MAX; lia).
  destruct (int_half_bounds n ltac:(lia)) as (Hh0 & Hh1 & Hh2).
  assert (Hfirst : factor (Window (configured n) k) 0 = Ok (v, Window (configured n) k)).
  { rewrite (factor_leaf k (configured n) 0 eq_refl).
    rewrite evaluated_index_low by (change (i_half_samples (configured n)) with (int_half n); lia).
    rewrite (clamped_at_zero k n v Hn H0 Hk). reflexivity. }
  split; [exact Hfirst|]. intros H3.
  rewrite (factor_mirror (Window (configured n) k) (n - 1)).
  - cbn [fields]. change (i_samples (configured n)) with n.
    replace (n - (n - 1) - 1) with 0 by lia. exact Hfirst.
  - cbn [fields]. change (i_samples (configured n)) with n.
    unfold int_range, INT_MIN, INT_MAX. lia.
  - reflexivity.
  - cbn [fields]. change (i_samples (configured n)) with n.
    change (i_half_samples (configured n)) with (int_half n). lia.
Qed.

(** Outside the frame. After [begin(n)], a Rectange window and a
    BufferedWindow (whatever it wraps, whatever its cache holds) return
    0 from [factor(idx)] for every idx < 0 and every idx >= n, and stay
    as they are: an index below 0 fails the range check, an index from n
    on is mirrored to one below 0. *)
Theorem zero_outside_frame (w0 w : window variant) (n idx : Z) :
  1 <= n <= INT_MAX ->
  int_range idx ->
  idx < 0 \/ n <= idx ->
  checks_index w0 = true ->
  begin w0 n = Ok w ->
  factor w idx = Ok (zero, w).
Proof.
  intros Hn Hi Hout Hc Hb. destruct w0 as [b k|b p buf].
  - destruct k; try discriminate Hc. cbn [begin] in Hb. injection Hb as <-.
    exact (factor_rectangle_outside n idx Hn Hi Hout).
  - destruct w as [b1 k1|b1 p1 buf1].
    + exfalso. exact (begin_buffered_is_buffered _ _ _ _ _ _ Hb).
    + apply begin_wrapped_samples in Hb as [_ ->].
      exact (factor_buffered_outside b p1 buf1 n idx Hn Hi Hout).
Qed.

(** [begin] with the frame length a window has already is without
    effect: a second [begin(n)] returns the object the first one
    returned, for every class, at every depth of wrapping, from every
    state. *)
Theorem begin_idempotent (w w1 : window variant) (n : Z) :
  begin w n = Ok w1 -> begin w1 n = Ok w1.
Proof.
  intros Hb. destruct w1 as [b1 k1|b1 p1 buf1].
  - destruct w as [b k|b p buf].
    + cbn [begin] in Hb. injection Hb as <- <-. reflexivity.
    + exfalso. exact (begin_buffered_is_buffered _ _ _ _ _ _ Hb).
  - destruct w as [b k|b p buf]; [discriminate|].
    apply begin_wrapped_samples in Hb as [Hs ->].
    cbn [begin]. rewrite Hs, Z.eqb_refl. reflexivity.
Qed.

(** Frames without a second sample. A window that was never configured
    and a window configured for one sample both pass the assertion of
    [factor], and [samples_minus_1] is 0 in both. [factor(0)] returns:
    NaN from the seven cosine classes (0/0, given cos(NaN) = NaN),
    -infinity from Triangle and Welch (a division by 0), and from
    Rectange 1 for the frame of one sample, 0 for the frame of none. *)
Theorem degenerate_frames (k : variant) :
  cos_of_nan ->
  factor (Window_new k) 0
  = Ok (match k with
        | Rectange => zero
        | Triangle | Welch => S754_infinity true
        | _ => NaN
        end, Window_new k) /\
  (exists w : window variant,
     begin (Window_new k) 1 = Ok w /\
     factor w 0
     = Ok (match k with
           | Rectange => one
           | Triangle | Welch => S754_infinity true
           | _ => NaN
           end, w)).
Proof.
  intros Hnan. unfold cos_of_nan in Hnan. split.
  - unfold Window_new. rewrite (factor_leaf k WindowFunction_new 0 eq_refl).
    unfold clamped, impl_factor_internal, variant_impl. cbn [fst].
    change (evaluated_index WindowFunction_new 0) with 0.
    destruct k;
      [ vm_compute; reflexivity | | | vm_compute; reflexivity | | | | | | vm_compute; reflexivity ];
      unfold Hamming_factor_internal, Hann_factor_internal, Nuttall_factor_internal,
        Blackman_factor_internal, BlackmanNuttall_factor_internal,
        BlackmanHarris_factor_internal, FlatTop_factor_internal; cbv zeta;
      change (ratio WindowFunction_new 0) with NaN;
      change (fmul twoPi NaN) with NaN; change (fmul fourPi NaN) with NaN;
      change (fmul sixPi NaN) with NaN; rewrite Hnan; reflexivity.
  - eexists. split; [reflexivity|].
    rewrite (factor_leaf k (configured 1) 0 eq_refl).
    unfold clamped, impl_factor_internal, variant_impl. cbn [fst].
    change (evaluated_index (configured 1) 0) with 0.
    destruct k;
      [ vm_compute; reflexivity | | | vm_compute; reflexivity | | | | | | vm_compute; reflexivity ];
      unfold Hamming_factor_internal, Hann_factor_internal, Nuttall_factor_internal,
        Blackman_factor_internal, BlackmanNuttall_factor_internal,
        BlackmanHarris_factor_internal, FlatTop_factor_internal; cbv zeta;
      change (ratio (configured 1) 0) with NaN;
      change (fmul twoPi NaN) with NaN; change (fmul fourPi NaN) with NaN;
      change (fmul sixPi NaN) with NaN; rewrite Hnan; reflexivity.
Qed.

(** Triangle and Welch, the two classes that evaluate their formula at
    [idx - 1]: for every frame length from 2 to 2^24, [factor(1)] is
    exactly 0, the value a triangle and a parabola have at their first
    sample, and from length 5 on so is its mirror image [factor(n - 2)].
    No rounding is involved: every operation on the way is exact. *)
Theorem triangle_and_welch_zero_at_one (k : variant) (n : Z) :
  k = Triangle \/ k = Welch ->
  2 <= n <= 2 ^ 24 ->
  exists w : window variant,
    begin (Window_new k) n = Ok w /\
    factor w 1 = Ok (zero, w) /\
    (5 <= n -> factor w (n - 2) = Ok (zero, w)).
Proof.
  intros Hk Hn. exists (Window (configured n) k). split; [reflexivity|].
  assert (Hmax : n <= INT_MAX) by (unfold INT_MAX; lia).
  destruct (int_half_bounds n ltac:(lia)) as (Hh0 & Hh1 & Hh2).
  assert (Hh : 1 <= int_half n) by int_lia.
  assert (Hone : factor (Window (configured n) k) 1 = Ok (zero, Window (configured n) k)).
  { rewrite (factor_leaf k (configured n) 1 eq_refl).
    rewrite evaluated_index_low by (change (i_half_samples (configured n)) with (int_half n); lia).
    rewrite (shifted_formulas_at_one k n Hk Hn). reflexivity. }
  split; [exact Hone|]. intros H5.
  rewrite (factor_mirror (Window (configured n) k) (n - 2)).
  - cbn [fields]. change (i_samples (configured n)) with n.
    replace (n - (n - 2) - 1) with 1 by lia. exact Hone.
  - cbn [fields]. change (i_samples (configured n)) with n.
    unfold int_range, INT_MIN, INT_MAX. lia.
  - reflexivity.
  - cbn [fields]. change (i_samples (configured n)) with n.
    change (i_half_samples (configured n)) with (int_half n). int_lia.
Qed.

(** Buffering is transparent at every depth: [d] BufferedWindows, one
    around the other, around a new window of class [k] return after
    [begin(n)] for every idx in [0, n) the factor that the plain window
    returns, and are left as they are. Each cache is filled from the
    BufferedWindow or the window below it. *)
Theorem nested_buffers_agree (d : nat) (k : variant) (n idx : Z) :
  1 <= n <= INT_MAX ->
  0 <= idx < n ->
  exists (bw hw : window variant) (v : float),
    begin (nested_new d k) n = Ok bw /\
    begin (Window_new k) n = Ok hw /\
    factor bw idx = Ok (v, bw) /\
    factor hw idx = Ok (v, hw).
Proof.
  intros Hn Hidx.
  exists (nested d k n), (Window (configured n) k),
         (clamped k (configured n) (evaluated_index (configured n) idx)).
  split; [exact (begin_nested d k n Hn)|]. split; [reflexivity|].
  split; [exact (factor_nested d k n idx Hn Hidx)|].
  exact (factor_leaf k (configured n) idx eq_refl).
Qed.

End FurtherSource.

Section FurtherSpied.
Variable g : WindowFunction -> Z -> float.

(** [WindowFunction::factor] on a leaf window, seen by a spy: a call
    with 0 <= idx < n returns, having invoked [factor_internal] exactly
    once, at an index of the first half ([0, n/2]) that is idx or its
    mirror image n - 1 - idx; what it returns is that value, or 1.0 if
    the value is above 1.0. *)
Theorem factor_evaluates_once (s : Spy) (n idx : Z) :
  1 <= n <= INT_MAX ->
  0 <= idx < n ->
  exists j : Z,
    0 <= j <= int_half n /\
    (j = idx \/ j = n - 1 - idx) /\
    @factor Spy (spy_impl g) (Window (configured n) s) idx
    = Ok (if fgt (g (configured n) j) one then one else g (configured n) j,
          Window (configured n) {| invocations := (n, j) :: invocations s |}).
Proof.
  intros Hn Hidx. exists (evaluated_index (configured n) idx).
  split; [exact (evaluated_index_range n idx Hn Hidx)|]. split.
  - unfold evaluated_index.
    change (i_half_samples (configured n)) with (int_half n).
    change (i_samples (configured n)) with n.
    destruct (idx <=? int_half n); [left; reflexivity|].
    right. rewrite int_sub_sub by lia. lia.
  - apply (@factor_returns Spy (spy_impl g)); reflexivity.
Qed.

End FurtherSpied.

(** [BufferedWindow::name] around a leaf window of any class: the string
    returned is "Buffered " and the first 69 characters of the wrapped
    window's name, 78 characters at most; the array keeps its 80
    characters, its first nine and its two closing NULs, so the string
    always ends inside it, whatever earlier calls wrote. *)
Theorem buffered_name_truncates {E : Type} (leaf_name : E -> list char)
    (base b : WindowFunction) (self : E) (cache : Vector) (buffer : list char) :
  name_buffer_ok buffer ->
  exists buffer' : list char,
    name leaf_name (BufferedWindow base (Window b self) cache) buffer
    = Some (buffer', chars "Buffered "%string ++ take 69 (c_str (leaf_name self))) /\
    (length (chars "Buffered "%string ++ take 69 (c_str (leaf_name self))) <= 78)%nat /\
    name_buffer_ok buffer'.
Proof.
  intros Hok. destruct (BufferedWindow_name_ok buffer (leaf_name self) Hok) as [Hs Hb].
  exists (fst (BufferedWindow_name buffer (leaf_name self))).
  split; [|split; [|exact Hb]].
  - cbn [name]. rewrite <- Hs. destruct (BufferedWindow_name _ _). reflexivity.
  - rewrite length_app, length_take.
    change (length (chars "Buffered "%string)) with 9%nat. lia.
Qed.

(** [BufferedWindow::name] for the classes of the source, after any
    number of earlier calls: the string is "Buffered " and the name of
    the wrapped class, with nothing left of a longer name written
    before. The array is shared: it now holds this string, also for the
    callers that were given its address by the earlier calls. *)
Theorem buffered_name_shared (ks : list variant) (k : variant)
    (base b : WindowFunction) (cache : Vector) :
  name variant_name (BufferedWindow base (Window b k) cache) (name_buffer_after ks)
  = Some (name_buffer_after (ks ++ [k]), chars "Buffered "%string ++ variant_name k) /\
  c_str (name_buffer_after (ks ++ [k])) = chars "Buffered "%string ++ variant_name k.
Proof.
  destruct (BufferedWindow_name_ok (name_buffer_after ks) (variant_name k)
              (name_buffer_after_ok ks)) as [Hs _].
  rewrite variant_name_fits in Hs.
  assert (Hafter : name_buffer_after (ks ++ [k])
                   = fst (BufferedWindow_name (name_buffer_after ks) (variant_name k))).
  { unfold name_buffer_after. rewrite foldl_app. reflexivity. }
  split.
  - cbn [name]. rewrite Hafter, <- Hs.
    destruct (BufferedWindow_name _ _). reflexivity.
  - rewrite Hafter, <- Hs. reflexivity.
Qed.

(** * Concrete inputs where a claim fails as stated *)


(** C3, refuted as stated. Hamming with N = 1: [samples_minus_1] is 0 and
    [ratio(0)] is 0/0; with cos(NaN) = NaN [factor(0)] is NaN, and
    NaN <= 1.0 is false. *)
Lemma C3_hamming_single_sample :
  (forall L : Libm, cos_of_nan ->
     exists w : window variant,
       begin (Window_new Hamming) 1 = Ok w /\ factor w 0 = Ok (NaN, w)) /\
  fle NaN one = false.
Proof.
  split; [|reflexivity].
  intros L Hnan. eexists. split; [reflexivity|].
  rewrite (factor_leaf Hamming (configured 1) 0 eq_refl).
  unfold clamped, impl_factor_internal, variant_impl, Hamming_factor_internal.
  cbn [fst]. change (evaluated_index (configured 1) 0) with 0.
  change (ratio (configured 1) 0) with NaN. change (fmul twoPi NaN) with NaN.
  unfold cos_of_nan in Hnan. rewrite Hnan. reflexivity.
Qed.

(** C5, refuted as stated. [begin(8)], [begin(10)], [begin(8)] on a new
    BufferedWindow around a new spy returns, and the spy has then been
    invoked 10 times at frame length 8, more than 8/2 + 1. *)
Lemma C5_three_begins :
  (forall g : WindowFunction -> Z -> float,
     exists (w : window Spy) (vs : list float),
       @run Spy (spy_impl g)
         (BufferedWindow_new (Window_new {| invocations := [] |}))
         [Begin 8; Begin 10; Begin 8] = Ok (w, vs) /\
       invocations_at 8 (wrapped_invocations w) = 10) /\
  ~ (10 <= int_half 8 + 1).
Proof.
  split; [|vm_compute; intros Hle; apply Hle; reflexivity].
  intros g. do 2 eexists. split; [reflexivity|]. reflexivity.
Qed.

(** C9, refuted as stated. Triangle with N = 3: [factor_internal(-1)]
    is 1 - 2 * |-2 - 1| / 2 = -2, not 0. *)
Lemma C9_triangle_outside_range :
  (forall L : Libm,
     exists w : window variant,
       begin (Window_new Triangle) 3 = Ok w /\
       factor_internal w (-1) = Ok (S754_finite true 8388608 (-22), w)) /\
  S754_finite true 8388608 (-22) <> zero.
Proof.
  split; [|discriminate].
  intros L. eexists. split; [reflexivity|]. vm_compute. reflexivity.
Qed.

(** * The theorems at concrete inputs *)

Section Instances.
#[local] Existing Instance cos_taylor.



Lemma C3_clamped_and_mirrored_witness :
  int_range 5 /\
  exists w : window variant,
    begin (BufferedWindow_new (Window_new Hann)) 5 = Ok w /\
    (forall (idx : Z) (v : float) (w' : window variant),
       factor w idx = Ok (v, w') ->
       fgt v one = false /\ (v = NaN \/ fle v one = true)) /\
    (forall idx : Z, int_half 5 < idx < 5 -> factor w idx = factor w (5 - idx - 1)).
Proof.
  assert (Hr : int_range 5) by (unfold int_range, INT_MIN, INT_MAX; lia).
  split; [exact Hr|].
  destruct (begin (BufferedWindow_new (Window_new Hann)) 5) as [w|e] eqn:Hb.
  - exists w. split; [reflexivity|].
    exact (C3_clamped_and_mirrored _ w 5 Hr Hb).
  - vm_compute in Hb. discriminate Hb.
Defined.

Lemma C4_buffered_hamming_agrees_witness :
  Forall (fun idx => 0 <= idx < 8) [0; 7; 3; 3; 4] /\
  exists (bw hw : window variant) (vs : list float),
    begin (BufferedWindow_new (Window_new Hamming)) 8 = Ok bw /\
    begin (Window_new Hamming) 8 = Ok hw /\
    run bw (map Factor [0; 7; 3; 3; 4]) = Ok (bw, vs) /\
    run hw (map Factor [0; 7; 3; 3; 4]) = Ok (hw, vs) /\
    length vs = length [0; 7; 3; 3; 4].
Proof.
  assert (Hall : Forall (fun idx => 0 <= idx < 8) [0; 7; 3; 3; 4])
    by (repeat constructor; lia).
  split; [exact Hall|].
  exact (C4_buffered_hamming_agrees [0; 7; 3; 3; 4] Hall).
Defined.

Lemma C5_evaluations_per_length_change_witness :
  exists (w' : window Spy) (vs : list float),
    @run Spy (spy_impl (fun _ _ => one))
      (BufferedWindow_new (Window_new {| invocations := [] |}))
      [Begin 8; Factor 0; Factor 7; Begin 8; Factor 3] = Ok (w', vs) /\
    invocations_at 8 (wrapped_invocations w')
    <= 0 + Z.max 0 (int_half 8 + 1)
           * length_changes 8 0 [Begin 8; Factor 0; Factor 7; Begin 8; Factor 3].
Proof.
  destruct (@run Spy (spy_impl (fun _ _ => one))
              (BufferedWindow_new (Window_new {| invocations := [] |}))
              [Begin 8; Factor 0; Factor 7; Begin 8; Factor 3])
    as [[w' vs]|e] eqn:Hrun.
  - exists w', vs. split; [reflexivity|].
    exact (proj1 (proj2 (proj2 (proj2
             (C5_evaluations_per_length_change (fun _ _ => one)
                WindowFunction_new WindowFunction_new
                {| invocations := [] |} []))))
             8 _ w' vs Hrun).
  - vm_compute in Hrun. discriminate Hrun.
Defined.

Lemma C7_half_samples_invariant_witness :
  reachable buffered_rectangle4 /\
  half_samples_ok buffered_rectangle4 /\
  (forall idx : Z, factor buffered_rectangle4 idx <> Abort AssertionFailed) /\
  (forall n : Z, begin buffered_rectangle4 n <> Abort AssertionFailed).
Proof.
  assert (Hr : reachable buffered_rectangle4).
  { apply (reach_begin (BufferedWindow_new (Window_new Rectange)) _ 4).
    - apply reach_buffered, reach_leaf.
    - reflexivity. }
  split; [exact Hr|].
  exact (C7_half_samples_invariant buffered_rectangle4 Hr).
Defined.

Lemma C8_rectangle_is_one_witness :
  1 <= 4 <= INT_MAX /\ 0 <= 3 < 4 /\
  exists w : window variant,
    begin (Window_new Rectange) 4 = Ok w /\ factor w 3 = Ok (one, w).
Proof.
  assert (Hn : 1 <= 4 <= INT_MAX) by (unfold INT_MAX; lia).
  assert (Hidx : 0 <= 3 < 4) by lia.
  split; [exact Hn|]. split; [exact Hidx|].
  exact (C8_rectangle_is_one 4 3 Hn Hidx).
Defined.

Lemma C9_guarded_classes_return_zero_witness :
  factor_internal (Window (configured 4) Rectange) 4
  = Ok (zero, Window (configured 4) Rectange) /\
  factor_internal buffered_rectangle4 3 = Ok (zero, buffered_rectangle4).
Proof.
  split.
  - apply (proj1 (C9_guarded_classes_return_zero (configured 4) 4)).
    right. simpl. lia.
  - apply (proj2 (C9_guarded_classes_return_zero (configured 4) 3)).
    right. reflexivity.
Defined.

Lemma C10_factor_leaves_state_witness :
  exists (v : float) (w' : window variant),
    factor buffered_rectangle4 3 = Ok (v, w') /\ w' = buffered_rectangle4.
Proof.
  destruct (factor buffered_rectangle4 3) as [[v w']|e] eqn:Hf.
  - exists v, w'. split; [reflexivity|].
    exact (C10_factor_leaves_state buffered_rectangle4 w' 3 v Hf).
  - vm_compute in Hf. discriminate Hf.
Defined.

Lemma buffered_agrees_with_plain_witness :
  1 <= 6 <= INT_MAX /\ 0 <= 4 < 6 /\
  exists (bw hw : window variant) (v : float),
    begin (BufferedWindow_new (Window_new Blackman)) 6 = Ok bw /\
    begin (Window_new Blackman) 6 = Ok hw /\
    factor bw 4 = Ok (v, bw) /\
    factor hw 4 = Ok (v, hw).
Proof.
  assert (Hn : 1 <= 6 <= INT_MAX) by (unfold INT_MAX; lia).
  assert (Hidx : 0 <= 4 < 6) by lia.
  split; [exact Hn|]. split; [exact Hidx|].
  exact (buffered_agrees_with_plain Blackman 6 4 Hn Hidx).
Defined.

Lemma begin_again_witness :
  exists w1 : window variant,
    begin (BufferedWindow_new (Window_new Welch)) 8 = Ok w1 /\
    begin w1 9
    = Ok (BufferedWindow (configured 9) (Window (configured 9) Welch)
            (if int_half 8 =? int_half 9 then cache Welch 8 else cache Welch 9)).
Proof.
  assert (Hn1 : 1 <= 8 <= INT_MAX) by (unfold INT_MAX; lia).
  assert (Hn2 : 1 <= 9 <= INT_MAX) by (unfold INT_MAX; lia).
  assert (Hne : 8 <> 9) by lia.
  destruct (proj2 (begin_again Welch 8 9 Hn1 Hn2 Hne)) as (w1 & Hb1 & Hb2 & _).
  exists w1. split; [exact Hb1 | exact Hb2].
Defined.

Lemma hamming5_first_factor_witness :
  exists w : window variant,
    begin (Window_new Hamming) 5 = Ok w /\
    factor w 0 = Ok (S754_finite false 10737420 (-27), w).
Proof. exact (hamming5_first_factor eq_refl). Defined.

Lemma samples_minus_1_is_exact_witness :
  0 <= 1000 <= 2 ^ 24 /\
  samples_minus_1 (configured 1000) = of_int (1000 - 1) /\
  holds_integer (samples_minus_1 (configured 1000)) (1000 - 1).
Proof.
  assert (Hn : 0 <= 1000 <= 2 ^ 24) by lia.
  split; [exact Hn|].
  exact (proj1 samples_minus_1_is_exact 1000 Hn).
Defined.

Lemma factor_symmetric_off_middle_witness :
  1 <= 6 <= INT_MAX /\
  begin (Window_new Hann) 6 = Ok (Window (configured 6) Hann) /\
  0 <= 1 < 6 /\
  (Z.odd 6 = true \/ (1 <> int_half 6 - 1 /\ 1 <> int_half 6)) /\
  factor (Window (configured 6) Hann) 1 = factor (Window (configured 6) Hann) (6 - 1 - 1).
Proof.
  assert (Hn : 1 <= 6 <= INT_MAX) by (unfold INT_MAX; lia).
  assert (Hb : begin (Window_new Hann) 6 = Ok (Window (configured 6) Hann)) by reflexivity.
  assert (Hidx : 0 <= 1 < 6) by lia.
  assert (Hmid : Z.odd 6 = true \/ (1 <> int_half 6 - 1 /\ 1 <> int_half 6))
    by (right; split; discriminate).
  split; [exact Hn|]. split; [exact Hb|]. split; [exact Hidx|]. split; [exact Hmid|].
  exact (factor_symmetric_off_middle _ _ 6 1 Hn Hb Hidx Hmid).
Defined.

Lemma buffered_around_configured_window_witness :
  1 <= 4 <= INT_MAX /\
  0 <= 1 < 4 /\
  samples (Window (configured 4) Hamming) = 4 /\
  (forall (base : WindowFunction) (buffer : Vector),
     begin (BufferedWindow base (Window (configured 4) Hamming) buffer) 4
     = Ok (BufferedWindow (configured 4) (Window (configured 4) Hamming) buffer)) /\
  (exists bw : window variant,
     begin (BufferedWindow_new (Window (configured 4) Hamming)) 4 = Ok bw /\
     factor bw 1 = Abort IndexOutOfRange).
Proof.
  assert (Hn : 1 <= 4 <= INT_MAX) by (unfold INT_MAX; lia).
  assert (Hidx : 0 <= 1 < 4) by lia.
  assert (Hs : samples (Window (configured 4) Hamming) = 4) by reflexivity.
  split; [exact Hn|]. split; [exact Hidx|]. split; [exact Hs|].
  exact (buffered_around_configured_window (Window (configured 4) Hamming) 4 1 Hn Hidx Hs).
Defined.

Lemma window_edges_witness :
  2 <= 16 <= 2 ^ 24 /\
  cos_of_zero /\
  edge_factor Blackman = Some (S754_finite false 10522624 (-31)) /\
  exists w : window variant,
    begin (Window_new Blackman) 16 = Ok w /\
    factor w 0 = Ok (S754_finite false 10522624 (-31), w) /\
    (3 <= 16 -> factor w (16 - 1) = Ok (S754_finite false 10522624 (-31), w)).
Proof.
  assert (Hn : 2 <= 16 <= 2 ^ 24) by lia.
  assert (H0 : cos_of_zero) by reflexivity.
  assert (Hk : edge_factor Blackman = Some (S754_finite false 10522624 (-31))) by reflexivity.
  split; [exact Hn|]. split; [exact H0|]. split; [exact Hk|].
  exact (window_edges Blackman 16 _ Hn H0 Hk).
Defined.

Lemma zero_outside_frame_witness :
  1 <= 4 <= INT_MAX /\
  int_range 7 /\
  (7 < 0 \/ 4 <= 7) /\
  checks_index (BufferedWindow_new (Window_new Hann)) = true /\
  begin (BufferedWindow_new (Window_new Hann)) 4 = Ok (buffered Hann 4) /\
  factor (buffered Hann 4) 7 = Ok (zero, buffered Hann 4).
Proof.
  assert (Hn : 1 <= 4 <= INT_MAX) by (unfold INT_MAX; lia).
  assert (Hi : int_range 7) by (unfold int_range, INT_MIN, INT_MAX; lia).
  assert (Hout : 7 < 0 \/ 4 <= 7) by lia.
  assert (Hc : checks_index (BufferedWindow_new (Window_new Hann)) = true) by reflexivity.
  pose proof (begin_buffered_new Hann 4 Hn) as Hb.
  split; [exact Hn|]. split; [exact Hi|]. split; [exact Hout|]. split; [exact Hc|].
  split; [exact Hb|].
  exact (zero_outside_frame _ _ 4 7 Hn Hi Hout Hc Hb).
Defined.

Lemma begin_idempotent_witness :
  begin (BufferedWindow_new (Window_new Triangle)) 8 = Ok (buffered Triangle 8) /\
  begin (buffered Triangle 8) 8 = Ok (buffered Triangle 8).
Proof.
  assert (Hn : 1 <= 8 <= INT_MAX) by (unfold INT_MAX; lia).
  pose proof (begin_buffered_new Triangle 8 Hn) as Hb.
  split; [exact Hb|].
  exact (begin_idempotent _ _ 8 Hb).
Defined.

Lemma degenerate_frames_witness :
  cos_of_nan /\
  factor (Window_new Hann) 0 = Ok (NaN, Window_new Hann) /\
  (exists w : window variant,
     begin (Window_new Hann) 1 = Ok w /\ factor w 0 = Ok (NaN, w)).
Proof.
  assert (Hnan : cos_of_nan) by reflexivity.
  split; [exact Hnan|].
  exact (degenerate_frames Hann Hnan).
Defined.

Lemma factor_evaluates_once_witness :
  1 <= 5 <= INT_MAX /\
  0 <= 4 < 5 /\
  exists j : Z,
    0 <= j <= int_half 5 /\
    (j = 4 \/ j = 5 - 1 - 4) /\
    @factor Spy (spy_impl (fun _ _ => one)) (Window (configured 5) {| invocations := [] |}) 4
    = Ok (if fgt one one then one else one,
          Window (configured 5) {| invocations := [(5, j)] |}).
Proof.
  assert (Hn : 1 <= 5 <= INT_MAX) by (unfold INT_MAX; lia).
  assert (Hidx : 0 <= 4 < 5) by lia.
  split; [exact Hn|]. split; [exact Hidx|].
  exact (factor_evaluates_once (fun _ _ => one) {| invocations := [] |} 5 4 Hn Hidx).
Defined.

Lemma buffered_name_truncates_witness :
  name_buffer_ok name_buffer_new /\
  exists buffer' : list char,
    name variant_name (BufferedWindow_new (Window_new BlackmanHarris)) name_buffer_new
    = Some (buffer',
            chars "Buffered "%string ++ take 69 (c_str (variant_name BlackmanHarris))) /\
    (length (chars "Buffered "%string ++ take 69 (c_str (variant_name BlackmanHarris)))
     <= 78)%nat /\
    name_buffer_ok buffer'.
Proof.
  split; [exact name_buffer_new_ok|].
  exact (buffered_name_truncates variant_name _ _ BlackmanHarris _ _ name_buffer_new_ok).
Defined.

Lemma triangle_and_welch_zero_at_one_witness :
  (Welch = Triangle \/ Welch = Welch) /\
  2 <= 10 <= 2 ^ 24 /\
  exists w : window variant,
    begin (Window_new Welch) 10 = Ok w /\
    factor w 1 = Ok (zero, w) /\
    (5 <= 10 -> factor w (10 - 2) = Ok (zero, w)).
Proof.
  assert (Hk : Welch = Triangle \/ Welch = Welch) by (right; reflexivity).
  assert (Hn : 2 <= 10 <= 2 ^ 24) by lia.
  split; [exact Hk|]. split; [exact Hn|].
  exact (triangle_and_welch_zero_at_one Welch 10 Hk Hn).
Defined.

Lemma nested_buffers_agree_witness :
  1 <= 6 <= INT_MAX /\
  0 <= 5 < 6 /\
  exists (bw hw : window variant) (v : float),
    begin (BufferedWindow_new (BufferedWindow_new (Window_new Hamming))) 6 = Ok bw /\
    begin (Window_new Hamming) 6 = Ok hw /\
    factor bw 5 = Ok (v, bw) /\
    factor hw 5 = Ok (v, hw).
Proof.
  assert (Hn : 1 <= 6 <= INT_MAX) by (unfold INT_MAX; lia).
  assert (Hidx : 0 <= 5 < 6) by lia.
  split; [exact Hn|]. split; [exact Hidx|].
  exact (nested_buffers_agree 2 Hamming 6 5 Hn Hidx).
Defined.

End Instances.
